(** * Lennard-Jones table generator (TABULATED/table_gen.py)

    A shallow embedding of the three functions of the script
    ([lorentz_berthelot], [compute_lennard_jones],
    [generate_interaction_tables]) over IEEE 754 binary64 numbers, and the
    properties of the tables they write.

    Python floats are binary64: they are modelled by [spec_float] with
    precision 53 and maximal exponent 1024, whose operations round to
    nearest, ties to even, and are executable.  Python raises exceptions
    where C would return a special value or set [errno]; those are modelled
    by an error monad.  Writes to the output file are collected in order;
    whether the file can be opened is decided by the file system, which is
    an argument of the run. *)

From Stdlib Require Import ZArith List String Ascii Bool Lia.
From Stdlib Require Import Floats.SpecFloat Numbers.DecimalString.
From Stdlib Require Import DecimalFacts DecimalPos DecimalN.
Import ListNotations.

Local Open Scope Z_scope.

(** ** Binary64 arithmetic *)

Definition float : Type := spec_float.

Module F64.

Definition prec : Z := 53.
Definition emax : Z := 1024.

Definition add : float -> float -> float := SFadd prec emax.
Definition sub : float -> float -> float := SFsub prec emax.
Definition mul : float -> float -> float := SFmul prec emax.
Definition div : float -> float -> float := SFdiv prec emax.
Definition sqrt : float -> float := SFsqrt prec emax.
Definition neg : float -> float := SFopp.
Definition fabs : float -> float := SFabs.

Definition eqb : float -> float -> bool := SFeqb.
Definition ltb : float -> float -> bool := SFltb.
Definition leb : float -> float -> bool := SFleb.

Definition valid (x : float) : bool := valid_binary prec emax x.

Definition is_nan (x : float) : bool :=
  match x with S754_nan => true | _ => false end.

Definition is_inf (x : float) : bool :=
  match x with S754_infinity _ => true | _ => false end.

Definition is_zero (x : float) : bool :=
  match x with S754_zero _ => true | _ => false end.

Definition is_finite (x : float) : bool :=
  match x with S754_zero _ | S754_finite _ _ _ => true | _ => false end.

Definition sign (x : float) : bool :=
  match x with
  | S754_zero s | S754_infinity s | S754_finite s _ _ => s
  | S754_nan => false
  end.

Definition zero : float := S754_zero false.
Definition inf : float := S754_infinity false.
Definition nan : float := S754_nan.

(** The float nearest to an integer (exact below 2^53): the conversion of
    the integer literals [4], [24], [2], [0] met by a float operand. *)
Definition of_Z (z : Z) : float := binary_normalize prec emax z 0 false.

(** The float nearest to the decimal [m / 10^k], for [m] and [10^k] below
    2^53, as the parser reads the literal: both are exact floats, and the
    quotient is rounded once. *)
Definition of_decimal (m : Z) (k : Z) : float := div (of_Z m) (of_Z (10 ^ k)).

(** The power of two [2^k]. *)
Definition pow2 (k : Z) : float := binary_normalize prec emax 1 k false.

End F64.

(** ** Exceptions *)

(** [OSError] stands for the class and its subclasses
    ([FileNotFoundError], [IsADirectoryError], [PermissionError], ...):
    the program never tells them apart. *)
Inductive exn : Type :=
  | ZeroDivisionError
  | OverflowError
  | ValueError
  | OSError.

Inductive res (A : Type) : Type :=
  | Ret (a : A)
  | Raise (e : exn).

Arguments Ret {A} a.
Arguments Raise {A} e.

Definition res_bind {A B : Type} (c : res A) (k : A -> res B) : res B :=
  match c with
  | Ret a => k a
  | Raise e => Raise e
  end.

Declare Scope res_scope.
Delimit Scope res_scope with res.
Notation "x <- c ;; k" := (res_bind c (fun x => k))
  (at level 61, c at next level, right associativity) : res_scope.

(** ** The operators of Python on floats *)

Module Py.

(** [a / b]: true division raises on a zero divisor of either sign. *)
Definition truediv (a b : float) : res float :=
  if F64.is_zero b then Raise ZeroDivisionError else Ret (F64.div a b).

(** [math.sqrt(x)]: a NaN result from a non-NaN argument is a domain
    error. *)
Definition math_sqrt (x : float) : res float :=
  let r := F64.sqrt x in
  if F64.is_nan r && negb (F64.is_nan x) then Raise ValueError else Ret r.

(** [int(x)]: truncation toward zero; infinities and NaN have no integer. *)
Definition int (x : float) : res Z :=
  match x with
  | S754_nan => Raise ValueError
  | S754_infinity _ => Raise OverflowError
  | S754_zero _ => Ret 0
  | S754_finite s m e =>
      let a := match e with
               | Zneg p => Z.shiftr (Zpos m) (Zpos p)
               | _ => Z.shiftl (Zpos m) e
               end in
      Ret (if s then - a else a)
  end.

(** The C library's [pow] on a positive finite base and a positive integral
    exponent: the exact power, rounded once. *)
Definition libm_pow (m : positive) (e : Z) (n : positive) : float :=
  binary_normalize F64.prec F64.emax (Zpos (m ^ n)) (e * Zpos n) false.

(** [x ** n] for a float [x] and a positive integer [n] (the program uses
    the exponents 6 and 2), after [float_pow] of CPython: the special
    values are sorted out first, the remaining powers are passed to the C
    library and an overflow of the result is raised as an error. *)
Definition float_pow (iv : float) (n : positive) : res float :=
  let iw_is_odd := Z.odd (Zpos n) in
  match iv with
  | S754_nan => Ret iv
  | S754_infinity _ => Ret (if iw_is_odd then iv else F64.fabs iv)
  | S754_zero _ => Ret (if iw_is_odd then iv else F64.zero)
  | S754_finite s m e =>
      let negate_result := s && iw_is_odd in
      if F64.eqb (F64.fabs iv) (F64.of_Z 1) then
        Ret (if negate_result then F64.of_Z (-1) else F64.of_Z 1)
      else
        let ix := libm_pow m e n in
        if F64.is_inf ix then Raise OverflowError
        else Ret (if negate_result then F64.neg ix else ix)
  end.

(** [range(n)] as the number of iterations of a [for] loop over it. *)
Definition range_len (n : Z) : nat := Z.to_nat n.

(** What the program cannot decide: the names that the process can create,
    or truncate, for writing (the directories that exist, the permissions,
    the names taken by directories). *)
Definition filesystem : Type := string -> bool.

Fixpoint has_nul (s : string) : bool :=
  match s with
  | EmptyString => false
  | String c s' => Ascii.eqb c Ascii.zero || has_nul s'
  end.

(** [open(filename, 'w')]: a name with a null character is refused before
    the system is asked ([ValueError]); the empty name is never that of a
    file ([FileNotFoundError]); any other name is opened, the file created
    or emptied, when the file system allows it, and raises an [OSError]
    otherwise.  Writing to the file once it is open is taken to succeed. *)
Definition open_w (fs : filesystem) (filename : string) : res unit :=
  if has_nul filename then Raise ValueError
  else if String.eqb filename "" then Raise OSError
  else if fs filename then Ret tt
  else Raise OSError.

End Py.

(** ** Formatting: the format specifications [<10.4f] and [<15.6f] *)

Module Fmt.

Local Open Scope string_scope.

Definition nl : string := String (ascii_of_nat 10) EmptyString.

Definition digit_char (d : Z) : ascii := ascii_of_nat (48 + Z.to_nat d).

(** Decimal digits of a natural number, ["0"] for zero. *)
Definition int_digits (n : Z) : string :=
  NilZero.string_of_uint (N.to_uint (Z.to_N n)).

(** The [p] low decimal digits of [n], leading zeros kept. *)
Fixpoint frac_digits (p : nat) (n : Z) : string :=
  match p with
  | O => ""
  | S p' => frac_digits p' (n / 10) ++ String (digit_char (n mod 10)) ""
  end.

(** [m * 2^e * 10^p] rounded to the nearest integer, ties to even: the
    conversion to decimal is correctly rounded from the exact binary
    value. *)
Definition scaled_round (p : nat) (m : positive) (e : Z) : Z :=
  let num := Zpos m * 10 ^ Z.of_nat p in
  match e with
  | Zneg k =>
      let den := 2 ^ Zpos k in
      let q := num / den in
      let r := num mod den in
      match 2 * r ?= den with
      | Lt => q
      | Gt => q + 1
      | Eq => if Z.even q then q else q + 1
      end
  | _ => num * 2 ^ e
  end.

Definition fixed (p : nat) (q : Z) : string :=
  let scale := 10 ^ Z.of_nat p in
  int_digits (q / scale) ++
  match p with
  | O => ""
  | _ => "." ++ frac_digits p (q mod scale)
  end.

Definition sign_str (s : bool) : string := if s then "-" else "".

(** [format(x, ".pf")] *)
Definition format_f (p : nat) (x : float) : string :=
  match x with
  | S754_nan => "nan"
  | S754_infinity s => sign_str s ++ "inf"
  | S754_zero s => sign_str s ++ fixed p 0
  | S754_finite s m e => sign_str s ++ fixed p (scaled_round p m e)
  end.

Fixpoint spaces (n : nat) : string :=
  match n with
  | O => ""
  | S n' => String " " (spaces n')
  end.

(** [<w]: left-justified, padded with spaces up to [w] characters; a longer
    text is kept whole. *)
Definition ljust (w : nat) (s : string) : string :=
  s ++ spaces (w - String.length s).

(** [format(x, "<w.pf")] *)
Definition field (w p : nat) (x : float) : string := ljust w (format_f p x).

Definition nat_str (n : nat) : string := int_digits (Z.of_nat n).

End Fmt.

(** ** The output: a writer over the error monad *)

Definition io (A : Type) : Type := (list string * res A)%type.

Definition io_ret {A : Type} (a : A) : io A := ([], Ret a).

Definition io_bind {A B : Type} (c : io A) (k : A -> io B) : io B :=
  match c with
  | (w, Ret a) => let (w', r) := k a in (w ++ w', r)
  | (w, Raise e) => (w, Raise e)
  end.

(** [f.write(s)] *)
Definition write (s : string) : io unit := ([s], Ret tt).

Definition lift {A : Type} (c : res A) : io A := ([], c).

Declare Scope io_scope.
Delimit Scope io_scope with io.
Notation "x <- c ;; k" := (io_bind c (fun x => k))
  (at level 61, c at next level, right associativity) : io_scope.
Notation "' pat <- c ;; k" := (io_bind c (fun x => match x with pat => k end))
  (at level 61, pat pattern, c at next level, right associativity) : io_scope.

(** ** The script *)

(** An atom definition: a dictionary with the keys [name], [epsilon] and
    [sigma].  The two parameters are floats; the integer [0] that the
    configuration gives for a sigma stands for [0.0], which it equals in
    every operation of the script. *)
Record AtomType : Type := mkAtom {
  name : string;
  epsilon : float;
  sigma : float
}.

Definition lit_2_0 : float := F64.of_decimal 20 1.
Definition lit_1e_10 : float := F64.of_decimal 1 10.

(** [lorentz_berthelot(atom1, atom2)] *)
Definition lorentz_berthelot (atom1 atom2 : AtomType) : res (float * float) :=
  (sigma_mix <- Py.truediv (F64.add (sigma atom1) (sigma atom2)) lit_2_0 ;;
   epsilon_mix <- Py.math_sqrt (F64.mul (epsilon atom1) (epsilon atom2)) ;;
   Ret (sigma_mix, epsilon_mix))%res.

(** [compute_lennard_jones(epsilon, sigma, r)] *)
Definition compute_lennard_jones (epsilon sigma r : float)
  : res (float * float) :=
  if F64.eqb r (F64.of_Z 0) then Ret (F64.inf, F64.inf)
  else
    (q <- Py.truediv sigma r ;;
     sr6 <- Py.float_pow q 6 ;;
     sr12 <- Py.float_pow sr6 2 ;;
     let E := F64.mul (F64.mul (F64.of_Z 4) epsilon) (F64.sub sr12 sr6) in
     c <- Py.truediv (F64.mul (F64.of_Z 24) epsilon) r ;;
     let F := F64.mul c (F64.sub (F64.mul (F64.of_Z 2) sr12) sr6) in
     Ret (E, F))%res.

(** [itertools.combinations_with_replacement(pool, 2)]: the pairs
    [(pool[i], pool[j])] with [i <= j], in lexicographic order of the
    indices. *)
Fixpoint combinations_with_replacement2 {A : Type} (pool : list A)
  : list (A * A) :=
  match pool with
  | [] => []
  | x :: rest =>
      map (pair x) (x :: rest) ++ combinations_with_replacement2 rest
  end.

Definition header (a1 a2 : AtomType) : string :=
  ("TYPE " ++ (name a1 ++ name a2) ++ Fmt.nl)%string.

Definition row (r E F : float) : string :=
  (Fmt.field 10 4 r ++ " " ++ Fmt.field 15 6 E ++ " " ++ Fmt.field 15 6 F
   ++ Fmt.nl)%string.

(** The data loop: [for _ in range(steps + 1)], with [n] iterations left. *)
Fixpoint data_loop (n : nat) (epsilon_ij sigma_ij current_r delta_r : float)
  : io unit :=
  match n with
  | O => io_ret tt
  | S n' =>
      if F64.leb current_r lit_1e_10 then
        data_loop n' epsilon_ij sigma_ij (F64.add current_r delta_r) delta_r
      else
        (' (E, F) <- lift (compute_lennard_jones epsilon_ij sigma_ij current_r) ;;
         _ <- write (row current_r E F) ;;
         data_loop n' epsilon_ij sigma_ij (F64.add current_r delta_r) delta_r)%io
  end.

(** The body of [for a1, a2 in pairs]. *)
Definition pair_block (steps : Z) (start_r delta_r : float)
  (a1 a2 : AtomType) : io unit :=
  (' (sigma_ij, epsilon_ij) <- lift (lorentz_berthelot a1 a2) ;;
   _ <- write (header a1 a2) ;;
   data_loop (Py.range_len (steps + 1)) epsilon_ij sigma_ij start_r delta_r)%io.

Fixpoint for_pairs (steps : Z) (start_r delta_r : float)
  (pairs : list (AtomType * AtomType)) : io unit :=
  match pairs with
  | [] => io_ret tt
  | (a1, a2) :: rest =>
      (_ <- pair_block steps start_r delta_r a1 a2 ;;
       for_pairs steps start_r delta_r rest)%io
  end.

(** What a run leaves behind: the file (absent when the run fails before it
    is opened), the lines printed, and how the call ended. *)
Record run : Type := mkRun {
  file : option (string * list string);
  stdout : list string;
  outcome : res unit
}.

(** [steps = int((end_r - start_r) / delta_r)] *)
Definition grid_steps (start_r end_r delta_r : float) : res Z :=
  (q <- Py.truediv (F64.sub end_r start_r) delta_r ;; Py.int q)%res.

(** [generate_interaction_tables(atoms_list, start_r, end_r, delta_r,
    filename)], run on the file system [fs].  The number of steps is
    computed first, then the pairs are listed, then the file is opened:
    a failure of one of the three leaves no file.  Once the file is open it
    holds what was written when the loop ends or raises, and the two lines
    are printed only after the loop has ended. *)
Definition generate_interaction_tables (fs : Py.filesystem)
  (atoms_list : list AtomType) (start_r end_r delta_r : float)
  (filename : string) : run :=
  match grid_steps start_r end_r delta_r with
  | Raise e => mkRun None [] (Raise e)
  | Ret steps =>
      let pairs := combinations_with_replacement2 atoms_list in
      match Py.open_w fs filename with
      | Raise e => mkRun None [] (Raise e)
      | Ret _ =>
          match for_pairs steps start_r delta_r pairs with
          | (written, Ret _) =>
              mkRun (Some (filename, written))
                [("Computed " ++ Fmt.nat_str (List.length pairs)
                  ++ " interaction pairs.")%string;
                 ("Data written to " ++ filename)%string]
                (Ret tt)
          | (written, Raise e) =>
              mkRun (Some (filename, written)) [] (Raise e)
          end
      end
  end.

Definition default_filename : string := "OPC_table_01.inp".

(** A file system that lets every name be opened for writing. *)
Definition writable_everywhere : Py.filesystem := fun _ => true.

(** A file system on which no file can be opened for writing. *)
Definition read_only : Py.filesystem := fun _ => false.

(** The configuration section of the script. *)
Definition atoms : list AtomType :=
  [ mkAtom "OW0" (F64.of_decimal 1070857 4) (F64.of_decimal 31665 4);
    mkAtom "HW0" (F64.of_decimal 0 1) (F64.of_Z 0);
    mkAtom "LP0" (F64.of_decimal 0 1) (F64.of_Z 0) ].

Definition start_dist : float := F64.of_decimal 1 2.
Definition end_dist : float := F64.of_decimal 100 1.
Definition delta_r : float := F64.of_decimal 1 2.

(** The text of the file a run wrote, empty when it wrote none. *)
Definition file_chunks (r : run) : list string :=
  match file r with
  | Some (_, w) => w
  | None => []
  end.

(** ** Vocabulary of the statements *)

(** The distances the data loop visits in [n] iterations: the position
    advances by a rounded addition at every iteration. *)
Fixpoint samples (n : nat) (current_r delta_r : float) : list float :=
  match n with
  | O => []
  | S n' => current_r :: samples n' (F64.add current_r delta_r) delta_r
  end.

Definition skipped (r : float) : bool := F64.leb r lit_1e_10.

Definition kept (rs : list float) : list float :=
  filter (fun r => negb (skipped r)) rs.

(** The data row of one retained distance. *)
Definition emit (epsilon_ij sigma_ij r : float) : res string :=
  (EF <- compute_lennard_jones epsilon_ij sigma_ij r ;;
   Ret (row r (fst EF) (snd EF)))%res.

(** The rows of a list of retained distances, up to the first failure. *)
Fixpoint emit_all (epsilon_ij sigma_ij : float) (rs : list float) : io unit :=
  match rs with
  | [] => io_ret tt
  | r :: rs' =>
      match emit epsilon_ij sigma_ij r with
      | Ret line =>
          let (w, o) := emit_all epsilon_ij sigma_ij rs' in (line :: w, o)
      | Raise e => ([], Raise e)
      end
  end.


Definition is_header (s : string) : bool := String.prefix "TYPE " s.

Definition headers (chunks : list string) : list string :=
  filter is_header chunks.

Definition pair_header (p : AtomType * AtomType) : string :=
  header (fst p) (snd p).

(** A complete block: the header of the pair, then one row for each
    retained distance of the grid. *)
Definition block_of (n : nat) (start_r d : float)
  (p : AtomType * AtomType) (b : list string) : Prop :=
  exists s e rows,
    lorentz_berthelot (fst p) (snd p) = Ret (s, e) /\
    b = pair_header p :: rows /\
    Forall2 (fun r line => emit e s r = Ret line)
      (kept (samples n start_r d)) rows.

(** The formulas of the potential and of the force, on the two powers. *)
(** [p == q] on two results of the mixer, component by component: the
    mixed sigmas are compared with [==], and so are the mixed epsilons. *)
Definition mix_eqb (p q : float * float) : bool :=
  F64.eqb (fst p) (fst q) && F64.eqb (snd p) (snd q).

Definition lj_energy (epsilon sr6 sr12 : float) : float :=
  F64.mul (F64.mul (F64.of_Z 4) epsilon) (F64.sub sr12 sr6).

Definition lj_force (epsilon r sr6 sr12 : float) : float :=
  F64.mul (F64.div (F64.mul (F64.of_Z 24) epsilon) r)
          (F64.sub (F64.mul (F64.of_Z 2) sr12) sr6).

(** The largest integer below a finite float. *)
Definition float_floor (x : float) : Z :=
  match x with
  | S754_finite s m e =>
      let n := if s then Zneg m else Zpos m in
      match e with
      | Zneg p => n / 2 ^ Zpos p
      | _ => n * 2 ^ e
      end
  | _ => 0
  end.

(** The grid point [start + k * step], computed in one multiplication and
    one addition. *)
Definition grid_point (start_r step : float) (k : Z) : float :=
  F64.add start_r (F64.mul (F64.of_Z k) step).

(** The grid as a reader of the words "[floor]" and "[start + k * step]"
    expects it: the number of steps is the floor of the quotient and the
    [k]-th distance visited is the grid point. *)
Definition grid_as_stated (start_r end_r step : float) : Prop :=
  exists q,
    Py.truediv (F64.sub end_r start_r) step = Ret q /\
    grid_steps start_r end_r step = Ret (float_floor q) /\
    forall k, 0 <= k <= float_floor q ->
      nth (Z.to_nat k)
          (samples (Py.range_len (float_floor q + 1)) start_r step) F64.nan
      = grid_point start_r step k.

(** The first ten characters of a row: its distance column. *)
Definition distance_column (line : string) : string := substring 0 10 line.













(** A data row of the pair [p] on the grid of [n] distances from
    [start_r]: the distance is one of the grid that is not skipped, and the
    energy and the force are those of the mixed parameters of the pair at
    that distance. *)
Definition row_of_pair (n : nat) (start_r d : float)
  (p : AtomType * AtomType) (line : string) : Prop :=
  exists s e r E F,
    lorentz_berthelot (fst p) (snd p) = Ret (s, e) /\
    In r (samples n start_r d) /\
    F64.leb r lit_1e_10 = false /\
    F64.eqb r (F64.of_Z 0) = false /\
    compute_lennard_jones e s r = Ret (E, F) /\
    line = row r E F.

(** The number of bits of a finite float in front of the binary point:
    [2^(magnitude x - 1) <= |x| < 2^(magnitude x)]; 0 for the other
    floats. *)
Definition magnitude (x : float) : Z :=
  match x with
  | S754_finite _ m e => Zpos (digits2_pos m) + e
  | _ => 0
  end.

(** What a rounded mantissa is packed to: the magnitude of the result
    follows the number [D] of bits in front of the binary point, and the
    result is a valid float. *)
Definition rounded_to (s : bool) (D : Z) (x : float) : Prop :=
  (D <= 1022 -> F64.is_inf x = false) /\
  (1025 <= D -> x = S754_infinity s) /\
  (-1021 <= D ->
   x = S754_infinity s \/
   exists m' e', x = S754_finite s m' e' /\
                 D <= Zpos (digits2_pos m') + e') /\
  magnitude x <= Z.max (D + 1) 0 /\
  F64.valid x = true.

(** ** Vocabulary of the rounding proofs *)

(** The exponent of the least significant bit for a number of [x] bits in
    front of the binary point, in binary64. *)
Definition fexp64 (x : Z) : Z := Z.max (x - 53) (-1074).

(** [2^52], the least 53-bit mantissa. *)
Definition two52 : positive := 4503599627370496.

(** After [k] bits of [M] are shifted out, the record holds the quotient,
    and its two bits tell where the remainder stands against the half. *)
Definition shr_inv (M k : Z) (mrs : shr_record) : Prop :=
  let rem := M - shr_m mrs * 2 ^ k in
  0 <= shr_m mrs /\ 0 <= rem < 2 ^ k /\
  match loc_of_shr_record mrs with
  | loc_Exact => rem = 0
  | loc_Inexact c => 0 < rem /\ (2 * rem ?= 2 ^ k) = c
  end.

(** The second half of [binary_round_aux]: the rounded mantissa is
    normalised once more and packed. *)
Definition pack (s : bool) (R e : Z) : float :=
  let '(mrs, e') := shr_fexp F64.prec F64.emax R e loc_Exact in
  match shr_m mrs with
  | Z0 => S754_zero s
  | Zpos m => if e' <=? F64.emax - F64.prec then S754_finite s m e'
              else S754_infinity s
  | Zneg _ => S754_nan
  end.

(** The sigmas whose double does not overflow, and the epsilons whose
    square neither underflows nor overflows (1.5e-154 <= epsilon < 1.3e154),
    zero and infinity included. *)
Definition sigma_in_range (s : float) : bool :=
  F64.is_inf s || F64.ltb s (F64.pow2 1023).

Definition epsilon_in_range (e : float) : bool :=
  F64.is_zero e || F64.is_inf e
  || (F64.leb (F64.pow2 (-511)) e && F64.ltb e (F64.pow2 512)).

(** Comparisons in the hypotheses, turned into orders. *)
Ltac cmp_hyps :=
  repeat match goal with
  | H : _ /\ (_ ?= _) = _ |- _ => destruct H
  | H : (?a ?= ?b) = ?c |- _ =>
      let Hs := fresh "Hcmp" in
      pose proof (Z.compare_spec a b) as Hs; rewrite H in Hs; clear H;
      inversion Hs; clear Hs
  end.

(** ** The writer *)

Section Writer.

Context {A B : Type}.

Lemma io_bind_lift_ret (a : A) (k : A -> io B) :
  io_bind (lift (Ret a)) k = k a.
Proof. unfold io_bind, lift. destruct (k a). reflexivity. Qed.

End Writer.

Lemma io_bind_write {B : Type} (s : string) (k : unit -> io B) :
  io_bind (write s) k = (s :: fst (k tt), snd (k tt)).
Proof. unfold io_bind, write. destruct (k tt). reflexivity. Qed.

(** ** The data loop *)

Lemma data_loop_emit_all (n : nat) (e s r d : float) :
  data_loop n e s r d = emit_all e s (kept (samples n r d)).
Proof.
  revert r. induction n as [|n IH]; intro r; [reflexivity|].
  cbn [data_loop samples]. unfold kept. cbn [filter]. unfold skipped at 1.
  destruct (F64.leb r lit_1e_10) eqn:Hskip; cbn [negb].
  - apply IH.
  - cbn [emit_all]. unfold emit.
    destruct (compute_lennard_jones e s r) as [[E F]|x]; cbn [res_bind].
    + rewrite io_bind_lift_ret, io_bind_write, IH. cbn [fst snd].
      fold (kept (samples n (F64.add r d) d)).
      destruct (emit_all e s (kept (samples n (F64.add r d) d))).
      reflexivity.
    + reflexivity.
Qed.

Lemma samples_length (n : nat) (r d : float) : List.length (samples n r d) = n.
Proof. revert r. induction n; intro r; cbn; [reflexivity | now rewrite IHn]. Qed.

Lemma kept_count (rs : list float) :
  (List.length (kept rs) + List.length (filter skipped rs) = List.length rs)%nat.
Proof.
  induction rs as [|r rs IH]; [reflexivity|].
  unfold kept in *. cbn [filter]. destruct (skipped r); cbn; lia.
Qed.

Lemma emit_all_ret (e s : float) (rs : list float) (w : list string) :
  emit_all e s rs = (w, Ret tt) ->
  Forall2 (fun r line => emit e s r = Ret line) rs w.
Proof.
  revert w. induction rs as [|r rs IH]; intros w H; cbn in H.
  - inversion H. constructor.
  - destruct (emit e s r) as [line|x] eqn:Hr; [|discriminate].
    destruct (emit_all e s rs) as [w' o]. inversion H; subst.
    constructor; [exact Hr | now apply IH].
Qed.

Lemma emit_all_rows (e s : float) (rs : list float) :
  Forall (fun line => exists r E F, line = row r E F) (fst (emit_all e s rs)).
Proof.
  induction rs as [|r rs IH]; cbn; [constructor|].
  unfold emit. destruct (compute_lennard_jones e s r) as [[E F]|x];
    cbn [res_bind]; [|constructor].
  destruct (emit_all e s rs) as [w o]. cbn [fst] in *.
  constructor; [now exists r, E, F | exact IH].
Qed.

(** ** Headers and rows are told apart by their first character *)

Lemma int_digits_head (n : Z) :
  exists c rest, Fmt.int_digits n = String c rest /\ c <> "T"%char.
Proof.
  unfold Fmt.int_digits, NilZero.string_of_uint.
  destruct (N.to_uint (Z.to_N n)); cbn;
    eexists; eexists; (split; [reflexivity | discriminate]).
Qed.

Lemma format_f_head (p : nat) (x : float) :
  exists c rest, Fmt.format_f p x = String c rest /\ c <> "T"%char.
Proof.
  assert (Hfixed : forall s q, exists c rest,
    (Fmt.sign_str s ++ Fmt.fixed p q)%string = String c rest /\ c <> "T"%char).
  { intros s q. destruct s; cbn.
    - eexists; eexists; split; [reflexivity | discriminate].
    - unfold Fmt.fixed.
      destruct (int_digits_head (q / 10 ^ Z.of_nat p)) as (c & rest & -> & Hc).
      cbn. eexists; eexists; split; [reflexivity | exact Hc]. }
  destruct x as [s|s| |s m e]; cbn [Fmt.format_f].
  - apply Hfixed.
  - destruct s; cbn; eexists; eexists; (split; [reflexivity | discriminate]).
  - eexists; eexists; split; [reflexivity | discriminate].
  - apply Hfixed.
Qed.

Lemma row_not_header (r E F : float) : is_header (row r E F) = false.
Proof.
  unfold row, Fmt.field, Fmt.ljust.
  destruct (format_f_head 4 r) as (c & rest & -> & Hc).
  unfold is_header. cbn -[Ascii.ascii_dec].
  destruct (Ascii.ascii_dec "T" c) as [<-|Hne]; [now elim Hc|reflexivity].
Qed.

Lemma header_is_header (a1 a2 : AtomType) : is_header (header a1 a2) = true.
Proof.
  unfold is_header, header. cbn -[Ascii.ascii_dec].
  repeat (destruct (Ascii.ascii_dec _ _) as [_|Hne]; [|now elim Hne]).
  destruct ((name a1 ++ name a2) ++ Fmt.nl)%string; reflexivity.
Qed.

Lemma headers_rows (w : list string) :
  Forall (fun line => exists r E F, line = row r E F) w -> headers w = [].
Proof.
  induction 1 as [|line w (r & E & F & ->) _ IH]; [reflexivity|].
  unfold headers in *. cbn [filter]. now rewrite row_not_header.
Qed.

Lemma headers_app (u v : list string) : headers (u ++ v) = headers u ++ headers v.
Proof. apply filter_app. Qed.

(** ** One block, and the loop over the pairs *)

Lemma pair_block_eq (steps : Z) (start_r d : float) (a1 a2 : AtomType) :
  pair_block steps start_r d a1 a2 =
  match lorentz_berthelot a1 a2 with
  | Raise x => ([], Raise x)
  | Ret (s, e) =>
      (header a1 a2
         :: fst (emit_all e s (kept (samples (Py.range_len (steps + 1)) start_r d))),
       snd (emit_all e s (kept (samples (Py.range_len (steps + 1)) start_r d))))
  end.
Proof.
  unfold pair_block.
  destruct (lorentz_berthelot a1 a2) as [[s e]|x]; [|reflexivity].
  rewrite io_bind_lift_ret, io_bind_write, data_loop_emit_all. reflexivity.
Qed.

Lemma pair_block_headers (steps : Z) (start_r d : float) (a1 a2 : AtomType) :
  headers (fst (pair_block steps start_r d a1 a2)) =
  match lorentz_berthelot a1 a2 with
  | Raise _ => []
  | Ret _ => [header a1 a2]
  end.
Proof.
  rewrite pair_block_eq.
  destruct (lorentz_berthelot a1 a2) as [[s e]|x]; [|reflexivity].
  cbn [fst]. unfold headers at 1. cbn [filter]. rewrite header_is_header.
  fold (headers (fst (emit_all e s
    (kept (samples (Py.range_len (steps + 1)) start_r d))))).
  now rewrite headers_rows by apply emit_all_rows.
Qed.

Lemma pair_block_ret_headers (steps : Z) (start_r d : float)
  (a1 a2 : AtomType) (w : list string) :
  pair_block steps start_r d a1 a2 = (w, Ret tt) -> headers w = [header a1 a2].
Proof.
  intro H. pose proof (pair_block_headers steps start_r d a1 a2) as Hh.
  rewrite H in Hh. cbn [fst] in Hh. rewrite Hh.
  rewrite pair_block_eq in H.
  destruct (lorentz_berthelot a1 a2) as [[s e]|x]; [reflexivity|discriminate].
Qed.

Lemma for_pairs_cons (steps : Z) (start_r d : float) (a1 a2 : AtomType)
  (rest : list (AtomType * AtomType)) :
  for_pairs steps start_r d ((a1, a2) :: rest) =
  match pair_block steps start_r d a1 a2 with
  | (w, Ret _) =>
      (w ++ fst (for_pairs steps start_r d rest),
       snd (for_pairs steps start_r d rest))
  | (w, Raise x) => (w, Raise x)
  end.
Proof.
  cbn [for_pairs]. unfold io_bind.
  destruct (pair_block steps start_r d a1 a2) as [w [[]|x]]; [|reflexivity].
  destruct (for_pairs steps start_r d rest). reflexivity.
Qed.

(** The headers written are those of the pairs processed, in order; all of
    them when the loop runs to its end. *)
Lemma for_pairs_headers_prefix (steps : Z) (start_r d : float)
  (pairs : list (AtomType * AtomType)) :
  exists k, headers (fst (for_pairs steps start_r d pairs))
            = firstn k (map pair_header pairs).
Proof.
  induction pairs as [|[a1 a2] rest (k & IH)]; [now exists O|].
  rewrite for_pairs_cons.
  pose proof (pair_block_headers steps start_r d a1 a2) as Hh.
  destruct (pair_block steps start_r d a1 a2) as [w [[]|x]] eqn:Hb;
    cbn [fst] in *.
  - exists (S k). rewrite headers_app, IH.
    rewrite (pair_block_ret_headers _ _ _ _ _ _ Hb). reflexivity.
  - rewrite Hh. destruct (lorentz_berthelot a1 a2).
    + now exists 1%nat.
    + now exists O.
Qed.

Lemma for_pairs_ret_headers (steps : Z) (start_r d : float)
  (pairs : list (AtomType * AtomType)) (w : list string) :
  for_pairs steps start_r d pairs = (w, Ret tt) ->
  headers w = map pair_header pairs.
Proof.
  revert w. induction pairs as [|[a1 a2] rest IH]; intros w H.
  - inversion H. reflexivity.
  - rewrite for_pairs_cons in H.
    destruct (pair_block steps start_r d a1 a2) as [w1 [[]|x]] eqn:Hb;
      [|discriminate].
    destruct (for_pairs steps start_r d rest) as [w2 o2]. cbn [fst snd] in H.
    inversion H; subst. rewrite headers_app.
    rewrite (pair_block_ret_headers _ _ _ _ _ _ Hb), (IH w2 eq_refl).
    reflexivity.
Qed.

Lemma pair_block_ret (steps : Z) (start_r d : float) (a1 a2 : AtomType)
  (w : list string) :
  pair_block steps start_r d a1 a2 = (w, Ret tt) ->
  block_of (Py.range_len (steps + 1)) start_r d (a1, a2) w.
Proof.
  rewrite pair_block_eq.
  destruct (lorentz_berthelot a1 a2) as [[s e]|x] eqn:Hlb; [|discriminate].
  destruct (emit_all e s _) as [rows o] eqn:Hrows. cbn [fst snd].
  intro H. inversion H; subst. exists s, e, rows.
  repeat split; [exact Hlb | now apply emit_all_ret].
Qed.

Lemma for_pairs_ret_blocks (steps : Z) (start_r d : float)
  (pairs : list (AtomType * AtomType)) (w : list string) :
  for_pairs steps start_r d pairs = (w, Ret tt) ->
  exists blocks,
    w = List.concat blocks /\
    Forall2 (block_of (Py.range_len (steps + 1)) start_r d) pairs blocks.
Proof.
  revert w. induction pairs as [|[a1 a2] rest IH]; intros w H.
  - inversion H. exists []. split; [reflexivity | constructor].
  - rewrite for_pairs_cons in H.
    destruct (pair_block steps start_r d a1 a2) as [w1 [[]|x]] eqn:Hb;
      [|discriminate].
    destruct (for_pairs steps start_r d rest) as [w2 o2]. cbn [fst snd] in H.
    inversion H; subst. destruct (IH w2 eq_refl) as (blocks & -> & Hbl).
    exists (w1 :: blocks). split; [reflexivity|].
    constructor; [now apply pair_block_ret | exact Hbl].
Qed.

(** ** The run as a whole *)

Lemma run_chunks (fs : Py.filesystem) (atoms_list : list AtomType)
  (start_r end_r d : float) (filename : string) (steps : Z) :
  grid_steps start_r end_r d = Ret steps ->
  Py.open_w fs filename = Ret tt ->
  file_chunks
    (generate_interaction_tables fs atoms_list start_r end_r d filename)
  = fst (for_pairs steps start_r d (combinations_with_replacement2 atoms_list))
  /\ outcome
       (generate_interaction_tables fs atoms_list start_r end_r d filename)
  = snd (for_pairs steps start_r d (combinations_with_replacement2 atoms_list)).
Proof.
  intros Hs Hopen. unfold generate_interaction_tables. rewrite Hs, Hopen.
  destruct (for_pairs steps start_r d _) as [w [[]|x]]; split; reflexivity.
Qed.

Lemma run_no_steps (fs : Py.filesystem) (atoms_list : list AtomType)
  (start_r end_r d : float) (filename : string) (x : exn) :
  grid_steps start_r end_r d = Raise x ->
  generate_interaction_tables fs atoms_list start_r end_r d filename
  = mkRun None [] (Raise x).
Proof. intro Hs. unfold generate_interaction_tables. now rewrite Hs. Qed.

Lemma run_no_open (fs : Py.filesystem) (atoms_list : list AtomType)
  (start_r end_r d : float) (filename : string) (steps : Z) (x : exn) :
  grid_steps start_r end_r d = Ret steps ->
  Py.open_w fs filename = Raise x ->
  generate_interaction_tables fs atoms_list start_r end_r d filename
  = mkRun None [] (Raise x).
Proof.
  intros Hs Hopen. unfold generate_interaction_tables. now rewrite Hs, Hopen.
Qed.

(** A run stops before the file exists, or the file is open and the run is
    the loop over the pairs. *)
Lemma run_cases (fs : Py.filesystem) (atoms_list : list AtomType)
  (start_r end_r d : float) (filename : string) :
  let r := generate_interaction_tables fs atoms_list start_r end_r d filename in
  (exists x, r = mkRun None [] (Raise x)) \/
  (exists steps,
     grid_steps start_r end_r d = Ret steps /\
     Py.open_w fs filename = Ret tt /\
     file_chunks r
     = fst (for_pairs steps start_r d
              (combinations_with_replacement2 atoms_list)) /\
     outcome r
     = snd (for_pairs steps start_r d
              (combinations_with_replacement2 atoms_list))).
Proof.
  intro r. subst r.
  destruct (grid_steps start_r end_r d) as [steps|x] eqn:Hs.
  - destruct (Py.open_w fs filename) as [[]|x] eqn:Hopen.
    + right. exists steps. split; [reflexivity|]. split; [reflexivity|].
      now apply run_chunks.
    + left. exists x. now apply (run_no_open _ _ _ _ _ _ steps).
  - left. exists x. now apply run_no_steps.
Qed.

Lemma run_ret_steps (fs : Py.filesystem) (atoms_list : list AtomType)
  (start_r end_r d : float) (filename : string) :
  outcome (generate_interaction_tables fs atoms_list start_r end_r d filename)
    = Ret tt ->
  exists steps, grid_steps start_r end_r d = Ret steps.
Proof.
  unfold generate_interaction_tables.
  destruct (grid_steps start_r end_r d) as [steps|x]; [now exists steps|].
  discriminate.
Qed.

Lemma run_ret_open (fs : Py.filesystem) (atoms_list : list AtomType)
  (start_r end_r d : float) (filename : string) :
  outcome (generate_interaction_tables fs atoms_list start_r end_r d filename)
    = Ret tt ->
  Py.open_w fs filename = Ret tt.
Proof.
  unfold generate_interaction_tables.
  destruct (grid_steps start_r end_r d) as [steps|x]; [|discriminate].
  destruct (Py.open_w fs filename) as [[]|x]; [reflexivity|discriminate].
Qed.

(** ** Combinations with replacement *)

Section Combinations.

Context {A : Type}.

Lemma cwr2_length (l : list A) :
  (2 * List.length (combinations_with_replacement2 l)
   = List.length l * (List.length l + 1))%nat.
Proof.
  induction l as [|x l IH]; [reflexivity|].
  cbn [combinations_with_replacement2].
  rewrite length_app, length_map. cbn [List.length]. lia.
Qed.

Lemma cwr2_map {B : Type} (f : A -> B) (l : list A) :
  combinations_with_replacement2 (map f l)
  = map (fun p => (f (fst p), f (snd p))) (combinations_with_replacement2 l).
Proof.
  induction l as [|x l IH]; [reflexivity|].
  cbn [combinations_with_replacement2 map].
  rewrite map_app, IH. cbn [map fst snd]. f_equal. f_equal.
  rewrite !map_map. reflexivity.
Qed.

Lemma list_by_index (l : list A) (d : A) :
  l = map (fun i => nth i l d) (seq 0 (List.length l)).
Proof.
  induction l as [|x l IH]; [reflexivity|].
  cbn [List.length seq map nth]. f_equal.
  rewrite <- seq_shift, map_map. exact IH.
Qed.

End Combinations.

Lemma cwr2_seq_in (a n i j : nat) :
  In (i, j) (combinations_with_replacement2 (seq a n))
  <-> (a <= i /\ i <= j /\ j < a + n)%nat.
Proof.
  revert a. induction n as [|n IH]; intro a.
  - cbn. lia.
  - cbn [seq combinations_with_replacement2]. rewrite in_app_iff, IH.
    change (a :: seq (S a) n) with (seq a (S n)).
    rewrite in_map_iff. split.
    + intros [(k & Hk & Hin)|H]; [|lia].
      inversion Hk; subst. apply in_seq in Hin. lia.
    + intros (Ha & Hij & Hj).
      destruct (Nat.eq_dec a i) as [->|Hne]; [|right; lia].
      left. exists j. split; [reflexivity | apply in_seq; lia].
Qed.

Lemma cwr2_seq_nodup (a n : nat) :
  NoDup (combinations_with_replacement2 (seq a n)).
Proof.
  revert a. induction n as [|n IH]; intro a; [constructor|].
  cbn [seq combinations_with_replacement2].
  change (a :: seq (S a) n) with (seq a (S n)).
  apply NoDup_app; [| apply IH |].
  - apply NoDup_map_NoDup_ForallPairs; [|apply seq_NoDup].
    intros x y _ _ H. now inversion H.
  - intros [i j] Hin Hin'. apply in_map_iff in Hin as (k & Hk & _).
    inversion Hk; subst. apply cwr2_seq_in in Hin'. lia.
Qed.

(** ** Facts of binary64 arithmetic *)

Module F64Facts.

Lemma add_comm (x y : float) : F64.add x y = F64.add y x.
Proof.
  unfold F64.add, SFadd.
  destruct x as [sx|sx| |sx mx ex], y as [sy|sy| |sy my ey];
    try reflexivity; try (destruct sx, sy; reflexivity).
  cbv zeta. rewrite (Z.min_comm ex ey).
  now rewrite (Z.add_comm (cond_Zopp sx _)).
Qed.

Lemma mul_comm (x y : float) : F64.mul x y = F64.mul y x.
Proof.
  unfold F64.mul, SFmul.
  destruct x as [sx|sx| |sx mx ex], y as [sy|sy| |sy my ey];
    try reflexivity; try (destruct sx, sy; reflexivity).
  now rewrite (xorb_comm sx sy), (Pos.mul_comm mx my), (Z.add_comm ex ey).
Qed.

(** Shifting and rounding keep a mantissa non-negative. *)

Lemma iter_pos_inv {A : Type} (P : A -> Prop) (f : A -> A) :
  (forall x, P x -> P (f x)) ->
  forall p x, P x -> P (iter_pos f p x).
Proof.
  intros Hf. induction p as [p IH|p IH|]; intros x Hx; cbn [iter_pos]; auto.
Qed.

Lemma shr_1_nonneg (mrs : shr_record) : 0 <= shr_m mrs -> 0 <= shr_m (shr_1 mrs).
Proof.
  destruct mrs as [m r s]. cbn [shr_m].
  destruct m as [|[p|p|]|p]; cbn; lia.
Qed.

Lemma shr_nonneg (mrs : shr_record) (e n : Z) :
  0 <= shr_m mrs -> 0 <= shr_m (fst (shr mrs e n)).
Proof.
  intro H. unfold shr. destruct n as [|p|p]; cbn [fst]; auto.
  apply (iter_pos_inv (fun x => 0 <= shr_m x)); auto using shr_1_nonneg.
Qed.

Lemma shr_record_of_loc_m (m : Z) (l : location) :
  shr_m (shr_record_of_loc m l) = m.
Proof. destruct l as [|[]]; reflexivity. Qed.

Lemma shr_fexp_nonneg (m e : Z) (l : location) :
  0 <= m -> 0 <= shr_m (fst (shr_fexp F64.prec F64.emax m e l)).
Proof.
  intro H. unfold shr_fexp. apply shr_nonneg.
  now rewrite shr_record_of_loc_m.
Qed.

Lemma round_nearest_even_nonneg (m : Z) (l : location) :
  0 <= m -> 0 <= round_nearest_even m l.
Proof.
  intro H. destruct l as [|[]]; cbn; try lia. destruct (Z.even m); lia.
Qed.

Lemma binary_round_aux_not_nan (s : bool) (m e : Z) (l : location) :
  0 <= m ->
  F64.is_nan (binary_round_aux F64.prec F64.emax s m e l) = false.
Proof.
  intro H. unfold binary_round_aux.
  pose proof (shr_fexp_nonneg m e l H) as H1.
  destruct (shr_fexp F64.prec F64.emax m e l) as [mrs' e']. cbn [fst] in H1.
  pose proof (shr_fexp_nonneg _ e' loc_Exact
                (round_nearest_even_nonneg _ (loc_of_shr_record mrs') H1)) as H2.
  destruct (shr_fexp F64.prec F64.emax _ e' loc_Exact) as [mrs'' e''].
  cbn [fst] in H2.
  destruct (shr_m mrs'') as [|p|p]; [reflexivity | | lia].
  destruct (e'' <=? F64.emax - F64.prec); reflexivity.
Qed.

Lemma sqrt_not_nan (x : float) :
  F64.leb F64.zero x = true -> F64.is_nan (F64.sqrt x) = false.
Proof.
  destruct x as [s|s| |s m e]; try (destruct s); try discriminate;
    try reflexivity.
  intros _. unfold F64.sqrt, SFsqrt.
  destruct (SFsqrt_core_binary F64.prec F64.emax (Z.pos m) e)
    as [[mz ez] lz] eqn:Hc.
  apply binary_round_aux_not_nan.
  unfold SFsqrt_core_binary in Hc.
  destruct (Z.sqrtrem _) as [q r] eqn:Hq in Hc.
  inversion Hc; subst.
  match type of Hq with Z.sqrtrem ?a = _ =>
    pose proof (Z.sqrtrem_sqrt a) as Hs; rewrite Hq in Hs; cbn [fst] in Hs;
    rewrite Hs; apply Z.sqrt_nonneg
  end.
Qed.

Lemma sqrt_negative (x : float) :
  F64.ltb x F64.zero = true ->
  F64.is_nan (F64.sqrt x) = true /\ F64.is_nan x = false.
Proof.
  destruct x as [s|s| |s m e]; try (destruct s); try discriminate;
    intros _; split; reflexivity.
Qed.

Lemma eqb_zero_is_zero (r : float) :
  F64.eqb r (F64.of_Z 0) = F64.is_zero r.
Proof. destruct r as [s|s| |s m e]; try destruct s; reflexivity. Qed.

End F64Facts.

(** ** Rounding: shifts, doubles, halves, squares and roots *)

Module Rounding.

Lemma shr_1_spec (m : Z) (r s : bool) :
  0 <= m ->
  shr_1 (Build_shr_record m r s) = Build_shr_record (m / 2) (Z.odd m) (r || s).
Proof.
  intro H. rewrite <- Z.div2_div.
  destruct m as [|[p|p|]|p]; try reflexivity; lia.
Qed.

Lemma shr_inv_step (M k : Z) (mrs : shr_record) :
  0 <= k -> shr_inv M k mrs -> shr_inv M (k + 1) (shr_1 mrs).
Proof.
  intros Hk. destruct mrs as [m r s]. unfold shr_inv. cbn [shr_m].
  intros (Hm & Hrem & Hloc). rewrite shr_1_spec by exact Hm. cbn [shr_m].
  rewrite Z.pow_add_r, Z.pow_1_r by lia.
  pose proof (Z.pow_pos_nonneg 2 k ltac:(lia) Hk) as Hpow.
  pose proof (Zdiv.Zmod_odd m) as Hodd.
  pose proof (Z.div_mod m 2 ltac:(lia)) as Hdm.
  assert (Hh : 0 <= m / 2) by (apply Z.div_pos; lia).
  set (P := 2 ^ k) in *. set (h := m / 2) in *.
  assert (HmP : m * P = (h * P) * 2 + (m mod 2) * P)
    by (rewrite Hdm at 1; ring).
  replace (h * (P * 2)) with ((h * P) * 2) by ring.
  rewrite HmP in Hrem, Hloc. clearbody P h. clear HmP Hdm.
  generalize dependent (h * P). intros hP Hrem Hloc.
  split; [exact Hh|].
  destruct (Z.odd m), r, s; rewrite Hodd in *;
    cbn [orb loc_of_shr_record] in *;
    cmp_hyps;
    (split; [lia|]); try (split; [lia|]);
    try match goal with
        | |- (_ ?= _) = Lt => apply Z.compare_lt_iff
        | |- (_ ?= _) = Gt => apply Z.compare_gt_iff
        | |- (_ ?= _) = Eq => apply Z.compare_eq_iff
        end; lia.
Qed.

Lemma shr_inv_iter (M : Z) (p : positive) :
  forall k mrs, 0 <= k -> shr_inv M k mrs ->
  shr_inv M (k + Zpos p) (iter_pos shr_1 p mrs).
Proof.
  induction p as [p IH|p IH|]; intros k mrs Hk H; cbn [iter_pos].
  - replace (k + Z.pos p~1) with (k + 1 + Z.pos p + Z.pos p) by lia.
    apply IH; [lia|]. apply IH; [lia|]. now apply shr_inv_step.
  - replace (k + Z.pos p~0) with (k + Z.pos p + Z.pos p) by lia.
    apply IH; [lia|]. now apply IH.
  - now apply shr_inv_step.
Qed.

Lemma shr_inv_exact (M : Z) :
  0 <= M -> shr_inv M 0 (shr_record_of_loc M loc_Exact).
Proof. intro H. unfold shr_inv. cbn. lia. Qed.

(** Rounding the shifted mantissa is off by at most half a unit. *)
Lemma round_nearest_even_inv (M k : Z) (mrs : shr_record) :
  0 <= k -> shr_inv M k mrs ->
  let R := round_nearest_even (shr_m mrs) (loc_of_shr_record mrs) in
  shr_m mrs <= R <= shr_m mrs + 1 /\
  2 * R * 2 ^ k - 2 ^ k <= 2 * M <= 2 * R * 2 ^ k + 2 ^ k.
Proof.
  intros Hk (Hm & Hrem & Hloc) R. subst R.
  pose proof (Z.pow_pos_nonneg 2 k ltac:(lia) Hk) as Hpow.
  set (P := 2 ^ k) in *. set (m := shr_m mrs) in *.
  revert Hloc.
  destruct (loc_of_shr_record mrs) as [|[]]; cbn [round_nearest_even];
    intro Hloc; cmp_hyps; try destruct (Z.even m); nia.
Qed.

Lemma digits2_spec (m : positive) :
  2 ^ (Zpos (digits2_pos m) - 1) <= Zpos m < 2 ^ Zpos (digits2_pos m).
Proof.
  induction m as [m IH|m IH|]; cbn [digits2_pos]; [| |cbn; lia];
    rewrite Pos2Z.inj_succ;
    replace (Z.succ (Zpos (digits2_pos m)) - 1)
      with (Z.succ (Zpos (digits2_pos m) - 1)) by lia;
    rewrite !Z.pow_succ_r by lia; lia.
Qed.

Lemma digits2_unique (m : positive) (k : Z) :
  2 ^ (k - 1) <= Zpos m < 2 ^ k -> Zpos (digits2_pos m) = k.
Proof.
  intros [Hlo Hhi]. pose proof (digits2_spec m) as [Hlo' Hhi'].
  assert (0 < k).
  { destruct (Z.ltb_spec 0 k); [assumption|].
    assert (2 ^ k <= 1); [|lia].
    destruct (Z.eqb_spec k 0) as [->|]; [cbn; lia|].
    rewrite Z.pow_neg_r by lia. lia. }
  destruct (Z.lt_trichotomy (Zpos (digits2_pos m)) k) as [Hlt|[Heq|Hgt]];
    [|exact Heq|].
  - assert (2 ^ Zpos (digits2_pos m) <= 2 ^ (k - 1))
      by (apply Z.pow_le_mono_r; lia). lia.
  - assert (2 ^ k <= 2 ^ (Zpos (digits2_pos m) - 1))
      by (apply Z.pow_le_mono_r; lia). lia.
Qed.

Lemma binary_round_aux_pack (s : bool) (m e : Z) (l : location) :
  binary_round_aux F64.prec F64.emax s m e l
  = pack s (round_nearest_even
              (shr_m (fst (shr_fexp F64.prec F64.emax m e l)))
              (loc_of_shr_record (fst (shr_fexp F64.prec F64.emax m e l))))
      (snd (shr_fexp F64.prec F64.emax m e l)).
Proof.
  unfold binary_round_aux, pack.
  destruct (shr_fexp F64.prec F64.emax m e l) as [mrs' e']. reflexivity.
Qed.

Lemma fexp_eq (x : Z) : fexp F64.prec F64.emax x = fexp64 x.
Proof. reflexivity. Qed.

Lemma loc_of_shr_record_of_loc (m : Z) (l : location) :
  loc_of_shr_record (shr_record_of_loc m l) = l.
Proof. destruct l as [|[]]; reflexivity. Qed.

Lemma shr_fexp_noshift (m : positive) (e : Z) (l : location) :
  fexp64 (Zpos (digits2_pos m) + e) = e ->
  shr_fexp F64.prec F64.emax (Zpos m) e l = (shr_record_of_loc (Zpos m) l, e).
Proof.
  intro H. unfold shr_fexp. cbn [Zdigits2]. rewrite fexp_eq, H, Z.sub_diag.
  reflexivity.
Qed.

Lemma shr_fexp_shift (m : positive) (e : Z) (p : positive) :
  fexp64 (Zpos (digits2_pos m) + e) - e = Zpos p ->
  shr_fexp F64.prec F64.emax (Zpos m) e loc_Exact
  = (iter_pos shr_1 p (shr_record_of_loc (Zpos m) loc_Exact), e + Zpos p).
Proof.
  intro H. unfold shr_fexp. cbn [Zdigits2]. rewrite fexp_eq, H. reflexivity.
Qed.

Lemma pack_canonical (s : bool) (R : positive) (e : Z) :
  fexp64 (Zpos (digits2_pos R) + e) = e -> e <= 971 ->
  pack s (Zpos R) e = S754_finite s R e.
Proof.
  intros Hc He. unfold pack. rewrite (shr_fexp_noshift _ _ _ Hc).
  cbn [shr_m shr_record_of_loc].
  replace (e <=? F64.emax - F64.prec) with true; [reflexivity|].
  symmetry. apply Z.leb_le. unfold F64.emax, F64.prec. lia.
Qed.

Lemma binary_round_aux_noshift (s : bool) (m R : positive) (e : Z)
  (l : location) :
  fexp64 (Zpos (digits2_pos m) + e) = e ->
  round_nearest_even (Zpos m) l = Zpos R ->
  fexp64 (Zpos (digits2_pos R) + e) = e -> e <= 971 ->
  binary_round_aux F64.prec F64.emax s (Zpos m) e l = S754_finite s R e.
Proof.
  intros Hm HR Hc He. rewrite binary_round_aux_pack.
  rewrite (shr_fexp_noshift _ _ _ Hm). cbn [fst snd].
  rewrite F64Facts.shr_record_of_loc_m, loc_of_shr_record_of_loc, HR.
  now apply pack_canonical.
Qed.

Lemma div_eucl_pair (a b : Z) : Z.div_eucl a b = (a / b, a mod b).
Proof. unfold Z.div, Z.modulo. now destruct (Z.div_eucl a b). Qed.

Lemma lit_2_0_eq : lit_2_0 = S754_finite false two52 (-51).
Proof. reflexivity. Qed.

(** Dividing by 2.0: the quotient of the mantissas is exact. *)
Lemma SFdiv_core_two (M : positive) (E e' s q : Z) :
  e' = Z.min (fexp64 (Zpos (digits2_pos M) + E - 2)) (E + 51) ->
  s = E + 51 - e' -> 0 < s -> Zpos M * 2 ^ s = q * 2 ^ 52 ->
  SFdiv_core_binary F64.prec F64.emax (Zpos M) E (Zpos two52) (-51)
  = (q, e', loc_Exact).
Proof.
  intros He' Hs Hle Hq. unfold SFdiv_core_binary. cbn [Zdigits2].
  change (Zpos (digits2_pos two52)) with 53. rewrite fexp_eq.
  replace (Zpos (digits2_pos M) + E - (53 + -51))
    with (Zpos (digits2_pos M) + E - 2) by lia.
  replace (E - -51) with (E + 51) by lia.
  rewrite <- He', <- Hs.
  destruct s as [|s|s]; try lia.
  rewrite Z.shiftl_mul_pow2 by lia. rewrite div_eucl_pair, Hq.
  change (2 ^ 52) with (Zpos two52).
  rewrite Z.div_mul, Z.mod_mul by discriminate. reflexivity.
Qed.

(** A doubled mantissa is rounded back to the mantissa, one exponent up. *)
Lemma binary_round_aux_double (s : bool) (m : positive) (e : Z) :
  Zpos (digits2_pos m) = 53 -> -1074 <= e + 1 <= 971 ->
  binary_round_aux F64.prec F64.emax s (Zpos m~0) e loc_Exact
  = S754_finite s m (e + 1).
Proof.
  intros Hd He. rewrite binary_round_aux_pack.
  rewrite (shr_fexp_shift _ _ 1).
  2:{ cbn [digits2_pos]. rewrite Pos2Z.inj_succ, Hd. unfold fexp64. lia. }
  cbn [iter_pos shr_record_of_loc shr_1 fst snd shr_m loc_of_shr_record orb
       round_nearest_even].
  apply pack_canonical; [rewrite Hd; unfold fexp64|]; lia.
Qed.

Lemma valid_finite (s : bool) (m : positive) (e : Z) :
  F64.valid (S754_finite s m e) = true ->
  fexp64 (Zpos (digits2_pos m) + e) = e /\ e <= 971.
Proof.
  unfold F64.valid, valid_binary, bounded, canonical_mantissa.
  rewrite fexp_eq. intro H. apply andb_prop in H as [H1 H2].
  apply Z.eqb_eq in H1. apply Z.leb_le in H2.
  unfold F64.emax, F64.prec in H2. lia.
Qed.

Lemma add_self (m : positive) (e : Z) :
  fexp64 (Zpos (digits2_pos m) + e) = e ->
  F64.add (S754_finite false m e) (S754_finite false m e)
  = binary_round_aux F64.prec F64.emax false (Zpos m~0) e loc_Exact.
Proof.
  intro Hc. unfold F64.add, SFadd. cbv zeta. rewrite Z.min_id.
  unfold shl_align at 1 2. rewrite Z.sub_diag. cbn [fst cond_Zopp].
  change (Zpos m + Zpos m) with (Zpos (m + m)). rewrite Pos.add_diag.
  unfold binary_normalize, binary_round, shl_align.
  destruct (fexp F64.prec F64.emax (Zpos (digits2_pos m~0) + e) - e)
    as [|d|d] eqn:Hd; try reflexivity.
  exfalso. rewrite fexp_eq in Hd. cbn [digits2_pos] in Hd.
  rewrite Pos2Z.inj_succ in Hd. unfold fexp64 in *. lia.
Qed.

(** Half of the double of a float is the float, unless the double
    overflows. *)
Lemma half_double (m : positive) (e : Z) :
  F64.valid (S754_finite false m e) = true -> e <= 970 ->
  F64.div (F64.add (S754_finite false m e) (S754_finite false m e)) lit_2_0
  = S754_finite false m e.
Proof.
  intros Hv He. apply valid_finite in Hv as [Hc _].
  rewrite (add_self _ _ Hc), lit_2_0_eq.
  pose proof (digits2_spec m) as Hdig.
  destruct (Z.eq_dec (Zpos (digits2_pos m)) 53) as [Hd|Hd].
  - (* a normal number *)
    rewrite (binary_round_aux_double _ _ _ Hd) by (unfold fexp64 in Hc; lia).
    unfold F64.div, SFdiv. cbn [xorb].
    destruct (Z.eq_dec e (-1074)) as [->|Hne].
    + rewrite (SFdiv_core_two m _ (-1074) 52 (Zpos m));
        [|rewrite Hd; unfold fexp64; lia | lia | lia | reflexivity].
      apply binary_round_aux_noshift with (R := m); try reflexivity;
        try lia; rewrite Hd; reflexivity.
    + rewrite (SFdiv_core_two m _ (e - 1) 53 (Zpos m~0));
        [|rewrite Hd; unfold fexp64 in *; lia | lia | lia | lia].
      rewrite (binary_round_aux_double _ _ _ Hd) by (unfold fexp64 in Hc; lia).
      f_equal. lia.
  - (* a subnormal number *)
    assert (He' : e = -1074) by (unfold fexp64 in Hc; lia). subst e.
    assert (Hlt : Zpos (digits2_pos m) < 53) by (unfold fexp64 in Hc; lia).
    rewrite (binary_round_aux_noshift _ _ (m~0) _ _); try reflexivity;
      try lia;
      try (cbn [digits2_pos]; rewrite Pos2Z.inj_succ; unfold fexp64; lia).
    unfold F64.div, SFdiv. cbn [xorb].
    rewrite (SFdiv_core_two (m~0) _ (-1074) 51 (Zpos m));
      [| cbn [digits2_pos]; rewrite Pos2Z.inj_succ; unfold fexp64; lia
       | lia | lia | lia].
    apply binary_round_aux_noshift with (R := m); try reflexivity; try lia;
      unfold fexp64; lia.
Qed.

Lemma pack_carry (s : bool) (e : Z) :
  -1074 <= e + 1 <= 971 ->
  pack s (2 ^ 53) e = S754_finite s two52 (e + 1).
Proof.
  intro He. unfold pack. change (2 ^ 53) with (Zpos (two52~0)).
  rewrite (shr_fexp_shift _ _ 1).
  2:{ change (Zpos (digits2_pos two52~0)) with 54. unfold fexp64. lia. }
  cbn [iter_pos shr_record_of_loc shr_1 shr_m].
  replace (e + 1 <=? F64.emax - F64.prec) with true; [reflexivity|].
  symmetry. apply Z.leb_le. unfold F64.emax, F64.prec. lia.
Qed.

(** The square of a normal number whose square neither underflows nor
    overflows: a 53-bit mantissa within half a unit of the exact square. *)
Lemma mul_self (m : positive) (e : Z) :
  Zpos (digits2_pos m) = 53 -> -563 <= e <= 459 ->
  exists (M' : positive) (s : Z),
    F64.mul (S754_finite false m e) (S754_finite false m e)
    = S754_finite false M' (2 * e + s) /\
    (s = 52 \/ s = 53) /\
    2 ^ 52 <= Zpos M' < 2 ^ 53 /\
    2 * (Zpos M' * 2 ^ s) - 2 ^ s <= 2 * (Zpos m * Zpos m)
      <= 2 * (Zpos M' * 2 ^ s) + 2 ^ s.
Proof.
  intros Hd He.
  pose proof (digits2_spec m) as Hm. rewrite Hd in Hm.
  change (2 ^ (53 - 1)) with (2 ^ 52) in Hm.
  assert (Hlo : 2 ^ 52 * 2 ^ 52 <= Zpos m * Zpos m)
    by (apply Z.mul_le_mono_nonneg; lia).
  assert (Hhi : Zpos m * Zpos m <= (2 ^ 53 - 1) * (2 ^ 53 - 1))
    by (apply Z.mul_le_mono_nonneg; lia).
  unfold F64.mul, SFmul. cbn [xorb]. rewrite binary_round_aux_pack.
  set (P := (m * m)%positive).
  assert (HP : Zpos P = Zpos m * Zpos m) by reflexivity.
  replace (e + e) with (2 * e) by lia.
  assert (Hshift : forall p : positive,
    Zpos (digits2_pos P) = 53 + Zpos p -> 52 <= Zpos p <= 53 ->
    exists mrs,
      shr_fexp F64.prec F64.emax (Zpos P) (2 * e) loc_Exact
      = (mrs, 2 * e + Zpos p) /\ shr_inv (Zpos P) (Zpos p) mrs).
  { intros p Hdp Hp. eexists. split.
    - apply shr_fexp_shift. rewrite Hdp. unfold fexp64. lia.
    - apply (shr_inv_iter (Zpos P) p 0); [lia|]. apply shr_inv_exact. lia. }
  destruct (Z.lt_ge_cases (Zpos P) (2 ^ 105)) as [Hc|Hc].
  - (* 105 bits: 52 are shifted out *)
    destruct (Hshift 52%positive) as (mrs & -> & Hinv);
      [apply digits2_unique; lia | lia|].
    cbn [fst snd].
    destruct (round_nearest_even_inv (Zpos P) 52 mrs ltac:(lia) Hinv)
      as [HR Hhalf].
    destruct Hinv as (Hm0 & Hrem & _).
    set (R := round_nearest_even (shr_m mrs) (loc_of_shr_record mrs)) in *.
    destruct (Z.eq_dec R (2 ^ 53)) as [HR53|HR53].
    + rewrite HR53, pack_carry by lia.
      exists two52, 53. rewrite HR53 in Hhalf.
      split; [f_equal; lia|]. split; [now right|].
      change (Zpos two52) with (2 ^ 52). rewrite <- HP. lia.
    + destruct R as [|R'|R'] eqn:ER; try lia.
      rewrite pack_canonical;
        [|rewrite (digits2_unique R' 53) by lia; unfold fexp64; lia | lia].
      exists R', 52. split; [reflexivity|]. split; [now left|].
      rewrite <- HP. lia.
  - (* 106 bits: 53 are shifted out, and the rounding cannot carry *)
    destruct (Hshift 53%positive) as (mrs & -> & Hinv);
      [apply digits2_unique; lia | lia|].
    cbn [fst snd].
    destruct (round_nearest_even_inv (Zpos P) 53 mrs ltac:(lia) Hinv)
      as [HR Hhalf].
    destruct Hinv as (Hm0 & Hrem & _).
    set (R := round_nearest_even (shr_m mrs) (loc_of_shr_record mrs)) in *.
    destruct R as [|R'|R'] eqn:ER; try lia.
    rewrite pack_canonical;
      [|rewrite (digits2_unique R' 53) by lia; unfold fexp64; lia | lia].
    exists R', 53. split; [reflexivity|]. split; [now right|].
    rewrite <- HP. lia.
Qed.

(** The square root of a float within half a unit of the square of [m]:
    the integer root is [m] or [m - 1], and the remainder tells which. *)
Lemma sqrt_near_square (m M' : positive) (e s : Z) :
  Zpos (digits2_pos m) = 53 -> -1074 <= e <= 971 ->
  (s = 52 \/ s = 53) ->
  2 ^ 52 <= Zpos M' < 2 ^ 53 ->
  2 * (Zpos M' * 2 ^ s) - 2 ^ s <= 2 * (Zpos m * Zpos m)
    <= 2 * (Zpos M' * 2 ^ s) + 2 ^ s ->
  F64.sqrt (S754_finite false M' (2 * e + s)) = S754_finite false m e.
Proof.
  intros Hd He Hs HM Hnear.
  pose proof (digits2_spec m) as Hm. rewrite Hd in Hm.
  change (2 ^ (53 - 1)) with (2 ^ 52) in Hm.
  assert (HdM : Zpos (digits2_pos M') = 53) by (apply digits2_unique; lia).
  unfold F64.sqrt, SFsqrt, SFsqrt_core_binary. cbn [Zdigits2].
  rewrite HdM, fexp_eq.
  assert (He1 : Z.div2 (53 + (2 * e + s) + 1) = e + 53)
    by (rewrite Z.div2_div; destruct Hs; subst s;
        Z.to_euclidean_division_equations; lia).
  assert (He2 : Z.div2 (2 * e + s) = e + 26)
    by (rewrite Z.div2_div; destruct Hs; subst s;
        Z.to_euclidean_division_equations; lia).
  rewrite He1, He2.
  replace (Z.min (fexp64 (e + 53)) (e + 26)) with e by (unfold fexp64; lia).
  replace (2 * e + s - 2 * e) with s by lia.
  set (V := Zpos M' * 2 ^ s) in *.
  assert (HV : match s with
               | Zpos _ => Z.shiftl (Zpos M') s
               | 0 => Zpos M'
               | Zneg _ => 0
               end = V).
  { destruct Hs; subst s; apply Z.shiftl_mul_pow2; lia. }
  rewrite HV.
  assert (H2s : 2 ^ 52 <= 2 ^ s <= 2 ^ 53 /\ 2 ^ 104 <= V)
    by (destruct Hs; subst s V; lia).
  pose proof (Z.sqrtrem_spec V ltac:(lia)) as Hsq.
  destruct (Z.sqrtrem V) as [q r]. destruct Hsq as [HVq Hr].
  set (P := Zpos m * Zpos m) in *.
  clearbody V. clear HV.
  destruct (Z.le_gt_cases P V) as [Hge|Hlt].
  - (* the root is [m] *)
    assert (Hq : q = Zpos m) by nia. subst q.
    assert (Hrm : r <= Zpos m) by (subst P; lia).
    apply binary_round_aux_noshift with (R := m);
      [rewrite Hd; unfold fexp64; lia | | rewrite Hd; unfold fexp64; lia | lia].
    destruct (r =? 0); [reflexivity|].
    replace (r <=? Zpos m) with true by (symmetry; apply Z.leb_le; lia).
    reflexivity.
  - (* the root is [m - 1], rounded up *)
    assert (Hq : q = Zpos m - 1) by nia. subst q.
    assert (Hm1 : 2 ^ 52 < Zpos m) by nia.
    assert (Hrm : Zpos m - 1 < r) by (subst P; nia).
    destruct (Zpos m - 1) as [|m1|m1] eqn:Em1; try lia.
    apply binary_round_aux_noshift with (R := m);
      [rewrite (digits2_unique m1 53) by lia; unfold fexp64; lia
      | | rewrite Hd; unfold fexp64; lia | lia].
    replace (r =? 0) with false by (symmetry; apply Z.eqb_neq; lia).
    replace (r <=? Zpos m1) with false by (symmetry; apply Z.leb_gt; lia).
    cbn [round_nearest_even]. lia.
Qed.

Lemma eqb_refl_finite (s : bool) (m : positive) (e : Z) :
  F64.eqb (S754_finite s m e) (S754_finite s m e) = true.
Proof.
  unfold F64.eqb, SFeqb, SFcompare.
  rewrite Z.compare_refl, Pos.compare_cont_refl. destruct s; reflexivity.
Qed.

Lemma nonneg_cases (x : float) :
  F64.leb F64.zero x = true ->
  (exists s, x = S754_zero s) \/ x = S754_infinity false \/
  (exists m e, x = S754_finite false m e).
Proof.
  destruct x as [s|s| |s m e]; try destruct s; try discriminate; intros _;
    eauto.
Qed.

Lemma square_nonneg (x : float) :
  F64.leb F64.zero x = true -> F64.leb F64.zero (F64.mul x x) = true.
Proof.
  intro H.
  destruct (nonneg_cases x H) as [[s ->]|[->|(m & e & ->)]];
    [destruct s; reflexivity | reflexivity |].
  unfold F64.mul, SFmul. cbn [xorb].
  pose proof (F64Facts.binary_round_aux_not_nan false (Zpos (m * m)) (e + e)
                loc_Exact ltac:(lia)) as Hn.
  revert Hn. unfold binary_round_aux.
  destruct (shr_fexp F64.prec F64.emax (Zpos (m * m)) (e + e) loc_Exact)
    as [mrs' e'].
  destruct (shr_fexp F64.prec F64.emax _ e' loc_Exact) as [mrs'' e''].
  destruct (shr_m mrs'') as [|p|p]; [reflexivity | | discriminate].
  destruct (e'' <=? F64.emax - F64.prec); reflexivity.
Qed.

Lemma compare_two52 (m : positive) :
  Zpos (digits2_pos m) = 53 -> Pos.compare_cont Eq m two52 <> Lt.
Proof.
  intros Hd Hcmp. pose proof (digits2_spec m) as Hdig. rewrite Hd in Hdig.
  apply (proj1 (Pos.compare_lt_iff m two52)) in Hcmp.
  apply Pos2Z.pos_lt_pos in Hcmp.
  change (2 ^ (53 - 1)) with (Zpos two52) in Hdig. lia.
Qed.

Lemma epsilon_range_exponent (m : positive) (e : Z) :
  F64.valid (S754_finite false m e) = true ->
  F64.leb (F64.pow2 (-511)) (S754_finite false m e) = true ->
  F64.ltb (S754_finite false m e) (F64.pow2 512) = true ->
  Zpos (digits2_pos m) = 53 /\ -563 <= e <= 459.
Proof.
  intros Hv Hlo Hhi. apply valid_finite in Hv as [Hc _].
  change (F64.pow2 (-511)) with (S754_finite false two52 (-563)) in Hlo.
  change (F64.pow2 512) with (S754_finite false two52 460) in Hhi.
  unfold F64.leb, SFleb, SFcompare in Hlo.
  unfold F64.ltb, SFltb, SFcompare in Hhi.
  assert (Hlo' : -563 <= e).
  { destruct (Z.compare_spec (-563) e) as [Heq|Hlt|Hgt];
      [clear Hlo Hhi; lia | clear Hlo Hhi; lia | discriminate]. }
  clear Hlo.
  pose proof (digits2_spec m) as Hdig.
  assert (Hd : Zpos (digits2_pos m) = 53) by (unfold fexp64 in Hc; lia).
  split; [exact Hd|]. split; [exact Hlo'|].
  destruct (Z.compare_spec e 460) as [Heq|Hlt|Hgt];
    [exfalso | clear Hhi; lia | discriminate].
  destruct (Pos.compare_cont Eq m two52) eqn:Hcmp; try discriminate.
  exact (compare_two52 m Hd Hcmp).
Qed.

Lemma sigma_range_exponent (m : positive) (e : Z) :
  F64.valid (S754_finite false m e) = true ->
  F64.ltb (S754_finite false m e) (F64.pow2 1023) = true ->
  e <= 970.
Proof.
  intros Hv Hhi. apply valid_finite in Hv as [Hc He].
  change (F64.pow2 1023) with (S754_finite false two52 971) in Hhi.
  unfold F64.ltb, SFltb, SFcompare in Hhi.
  pose proof (digits2_spec m) as Hdig.
  destruct (Z.compare_spec e 971) as [Heq|Hlt|Hgt];
    [exfalso | clear Hhi; lia | discriminate].
  assert (Hd : Zpos (digits2_pos m) = 53)
    by (clear Hhi; unfold fexp64 in Hc; lia).
  destruct (Pos.compare_cont Eq m two52) eqn:Hcmp; try discriminate.
  exact (compare_two52 m Hd Hcmp).
Qed.

Lemma sqrt_square (m : positive) (e : Z) :
  Zpos (digits2_pos m) = 53 -> -563 <= e <= 459 ->
  F64.sqrt (F64.mul (S754_finite false m e) (S754_finite false m e))
  = S754_finite false m e.
Proof.
  intros Hd He.
  destruct (mul_self m e Hd He) as (M' & s & -> & Hs & HM & Hnear).
  apply sqrt_near_square; try assumption. lia.
Qed.

End Rounding.

(** ** The errors of the two functions *)

Lemma float_pow_raise (x : float) (n : positive) (e : exn) :
  Py.float_pow x n = Raise e -> e = OverflowError.
Proof.
  unfold Py.float_pow. destruct x as [s|s| |s m ex]; try discriminate.
  destruct (F64.eqb _ _); [discriminate|].
  destruct (F64.is_inf _); [|discriminate]. now inversion 1.
Qed.

Lemma truediv_nonzero (a b : float) :
  F64.is_zero b = false -> Py.truediv a b = Ret (F64.div a b).
Proof. intro H. unfold Py.truediv. now rewrite H. Qed.

Lemma lit_2_0_nonzero : F64.is_zero lit_2_0 = false.
Proof. reflexivity. Qed.

Lemma lorentz_berthelot_eq (a b : AtomType) :
  lorentz_berthelot a b =
  res_bind (Py.math_sqrt (F64.mul (epsilon a) (epsilon b)))
    (fun e => Ret (F64.div (F64.add (sigma a) (sigma b)) lit_2_0, e)).
Proof.
  unfold lorentz_berthelot. now rewrite (truediv_nonzero _ _ lit_2_0_nonzero).
Qed.



(** ** The potential evaluator *)

(** C1 (as amended).  [compute_lennard_jones] is a function of its three
    arguments alone.  When [r == 0] it returns [(+inf, +inf)].  Otherwise it
    computes [sr6 = (sigma / r) ** 6] and [sr12 = sr6 ** 2]; when neither
    power overflows it returns [E = 4 * epsilon * (sr12 - sr6)] and
    [F = (24 * epsilon / r) * (2 * sr12 - sr6)], and when one of them
    overflows it raises [OverflowError]; it raises nothing else. *)
Theorem compute_lennard_jones_cases (epsilon sigma r : float) :
  (F64.eqb r (F64.of_Z 0) = true ->
   compute_lennard_jones epsilon sigma r = Ret (F64.inf, F64.inf)) /\
  (F64.eqb r (F64.of_Z 0) = false ->
   match Py.float_pow (F64.div sigma r) 6 with
   | Raise _ => compute_lennard_jones epsilon sigma r = Raise OverflowError
   | Ret sr6 =>
       match Py.float_pow sr6 2 with
       | Raise _ => compute_lennard_jones epsilon sigma r = Raise OverflowError
       | Ret sr12 =>
           compute_lennard_jones epsilon sigma r
           = Ret (lj_energy epsilon sr6 sr12, lj_force epsilon r sr6 sr12)
       end
   end).
Proof.
  unfold compute_lennard_jones. rewrite F64Facts.eqb_zero_is_zero.
  destruct (F64.is_zero r) eqn:Hz; split; intro H; try discriminate;
    [reflexivity|].
  rewrite !(truediv_nonzero _ _ Hz). cbn [res_bind].
  destruct (Py.float_pow (F64.div sigma r) 6) as [sr6|x] eqn:H6;
    cbn [res_bind].
  - destruct (Py.float_pow sr6 2) as [sr12|y] eqn:H12; cbn [res_bind].
    + reflexivity.
    + now rewrite (float_pow_raise _ _ _ H12).
  - now rewrite (float_pow_raise _ _ _ H6).
Qed.

(** The energy and the force of the oxygen pair of the configuration at
    [r = 1.0]. *)
Lemma compute_lennard_jones_cases_witness :
  compute_lennard_jones (F64.of_decimal 1070857 4) (F64.of_decimal 31665 4)
    (F64.of_Z 1)
  = Ret (S754_finite false 7295150070392625 (-24),
         S754_finite false 5474079114592611 (-20))
  /\ compute_lennard_jones (F64.of_Z 1) (F64.of_Z 1) (S754_zero true)
     = Ret (F64.inf, F64.inf).
Proof.
  split.
  - pose proof (proj2 (compute_lennard_jones_cases
      (F64.of_decimal 1070857 4) (F64.of_decimal 31665 4) (F64.of_Z 1))
      eq_refl) as H.
    vm_compute in H. vm_compute. exact H.
  - exact (proj1 (compute_lennard_jones_cases
      (F64.of_Z 1) (F64.of_Z 1) (S754_zero true)) eq_refl).
Defined.

(** C1 (as stated) fails where a power overflows: with [sigma = 1e60] and
    [r = 1.0] the sixth power is out of range and the call raises instead
    of returning an energy and a force. *)
Lemma compute_lennard_jones_overflow :
  F64.eqb (F64.of_Z 1) (F64.of_Z 0) = false /\
  compute_lennard_jones (F64.of_Z 1) (F64.of_Z (10 ^ 60)) (F64.of_Z 1)
  = Raise OverflowError.
Proof. split; vm_compute; reflexivity. Qed.

(** ** The parameter mixer *)

Lemma eqb_same (x : float) : F64.eqb x x = negb (F64.is_nan x).
Proof.
  destruct x as [s|s| |s m e]; try (destruct s; reflexivity);
    [reflexivity | apply Rounding.eqb_refl_finite].
Qed.

(** C4 (as amended).  Mixing is symmetric in what it computes:
    [lorentz_berthelot(a, b)] and [lorentz_berthelot(b, a)] raise the same
    error or return the same two floats.  A component that is returned
    compares equal ([==]) to the one of the other order exactly when it is
    not NaN, and so the two results compare equal in both components
    exactly when neither the mixed sigma nor the mixed epsilon is NaN. *)
Theorem lorentz_berthelot_sym (a b : AtomType) :
  lorentz_berthelot a b = lorentz_berthelot b a /\
  forall p q,
    lorentz_berthelot a b = Ret p -> lorentz_berthelot b a = Ret q ->
    F64.eqb (fst p) (fst q) = negb (F64.is_nan (fst p)) /\
    F64.eqb (snd p) (snd q) = negb (F64.is_nan (snd p)) /\
    mix_eqb p q = negb (F64.is_nan (fst p)) && negb (F64.is_nan (snd p)).
Proof.
  assert (H : lorentz_berthelot a b = lorentz_berthelot b a).
  { unfold lorentz_berthelot.
    now rewrite (F64Facts.add_comm (sigma a)),
      (F64Facts.mul_comm (epsilon a)). }
  split; [exact H|]. intros p q Hp Hq.
  rewrite H, Hq in Hp. injection Hp as <-.
  unfold mix_eqb. rewrite !eqb_same. repeat split.
Qed.

(** The oxygen and the hydrogen of the configuration, in both orders. *)
Lemma lorentz_berthelot_sym_witness :
  let OW0 := mkAtom "OW0" (F64.of_decimal 1070857 4) (F64.of_decimal 31665 4) in
  let HW0 := mkAtom "HW0" (F64.of_Z 0) (F64.of_Z 0) in
  exists p q,
    lorentz_berthelot OW0 HW0 = Ret p /\ lorentz_berthelot HW0 OW0 = Ret q /\
    mix_eqb p q = true.
Proof.
  intros OW0 HW0.
  destruct (lorentz_berthelot OW0 HW0) as [p|x] eqn:Hp;
    [|vm_compute in Hp; discriminate Hp].
  destruct (lorentz_berthelot HW0 OW0) as [q|x] eqn:Hq;
    [|vm_compute in Hq; discriminate Hq].
  exists p, q. split; [reflexivity|]. split; [reflexivity|].
  destruct (proj2 (lorentz_berthelot_sym OW0 HW0) p q Hp Hq) as (_ & _ & Hm).
  rewrite Hm. vm_compute in Hp. injection Hp as <-. reflexivity.
Defined.

(** C4 (as stated) fails where a mixed parameter is NaN: with the epsilons
    [inf] and [0.0] the product is NaN in both orders, its square root is
    NaN, and NaN is not equal to itself; the two calls return the same
    pair, whose second components do not compare equal. *)
Lemma lorentz_berthelot_nan :
  let a := mkAtom "A" F64.inf (F64.of_Z 1) in
  let b := mkAtom "B" (F64.of_Z 0) (F64.of_Z 1) in
  lorentz_berthelot a b = Ret (F64.of_Z 1, F64.nan) /\
  lorentz_berthelot b a = Ret (F64.of_Z 1, F64.nan) /\
  F64.eqb F64.nan F64.nan = false /\
  mix_eqb (F64.of_Z 1, F64.nan) (F64.of_Z 1, F64.nan) = false.
Proof. vm_compute. repeat split. Qed.

(** ** The self pair *)

Lemma lorentz_berthelot_returns (a b : AtomType) :
  F64.leb F64.zero (F64.mul (epsilon a) (epsilon b)) = true ->
  lorentz_berthelot a b
  = Ret (F64.div (F64.add (sigma a) (sigma b)) lit_2_0,
         F64.sqrt (F64.mul (epsilon a) (epsilon b))).
Proof.
  intro Hle. rewrite lorentz_berthelot_eq. unfold Py.math_sqrt.
  rewrite (F64Facts.sqrt_not_nan _ Hle). reflexivity.
Qed.

(** C5 (as amended).  For an atom with [sigma >= 0] and [epsilon >= 0],
    [lorentz_berthelot(a, a)] returns; the mixed sigma equals [sigma] when
    [sigma + sigma] does not overflow ([sigma < 2^1023], or [sigma]
    infinite), and the mixed epsilon equals [epsilon] when
    [epsilon * epsilon] neither underflows nor overflows
    ([2^-511 <= epsilon < 2^512], or [epsilon] zero or infinite). *)
Theorem self_pair_identity (a : AtomType) :
  F64.valid (sigma a) = true -> F64.valid (epsilon a) = true ->
  F64.leb F64.zero (sigma a) = true -> F64.leb F64.zero (epsilon a) = true ->
  exists sigma_mix epsilon_mix,
    lorentz_berthelot a a = Ret (sigma_mix, epsilon_mix) /\
    (sigma_in_range (sigma a) = true ->
     F64.eqb sigma_mix (sigma a) = true) /\
    (epsilon_in_range (epsilon a) = true ->
     F64.eqb epsilon_mix (epsilon a) = true).
Proof.
  intros Hvs Hve Hs He.
  rewrite (lorentz_berthelot_returns a a (Rounding.square_nonneg _ He)).
  eexists. eexists. split; [reflexivity|]. split.
  - unfold sigma_in_range. intro Hr.
    destruct (Rounding.nonneg_cases _ Hs) as [[s Es]|[Es|(m & e & Es)]];
      rewrite Es in *.
    + destruct s; reflexivity.
    + reflexivity.
    + cbn [F64.is_inf orb] in Hr.
      rewrite Rounding.half_double;
        [apply Rounding.eqb_refl_finite | exact Hvs
        | apply (Rounding.sigma_range_exponent m); assumption].
  - unfold epsilon_in_range. intro Hr.
    destruct (Rounding.nonneg_cases _ He) as [[s Es]|[Es|(m & e & Es)]];
      rewrite Es in *.
    + destruct s; reflexivity.
    + reflexivity.
    + cbn [F64.is_zero F64.is_inf orb] in Hr.
      apply andb_prop in Hr as [Hlo Hhi].
      destruct (Rounding.epsilon_range_exponent m e Hve Hlo Hhi) as [Hd Hex].
      rewrite Rounding.sqrt_square by assumption.
      apply Rounding.eqb_refl_finite.
Qed.

(** The oxygen of the configuration mixed with itself. *)
Lemma self_pair_identity_witness :
  let OW0 := mkAtom "OW0" (F64.of_decimal 1070857 4) (F64.of_decimal 31665 4) in
  exists sigma_mix epsilon_mix,
    lorentz_berthelot OW0 OW0 = Ret (sigma_mix, epsilon_mix) /\
    F64.eqb sigma_mix (sigma OW0) = true /\
    F64.eqb epsilon_mix (epsilon OW0) = true.
Proof.
  intro OW0.
  destruct (self_pair_identity OW0
              ltac:(vm_compute; reflexivity) ltac:(vm_compute; reflexivity)
              ltac:(vm_compute; reflexivity) ltac:(vm_compute; reflexivity))
    as (s & e & H & Hs & He).
  exists s, e. split; [exact H|].
  split; [apply Hs | apply He]; vm_compute; reflexivity.
Defined.

(** C5 (as stated) fails at the two ends of the range: with
    [sigma = 2^1023] the sum [sigma + sigma] overflows and the mixed sigma
    is infinite; with [epsilon = 2^-600] the product underflows and the
    mixed epsilon is zero. *)
Lemma self_pair_out_of_range :
  let a := mkAtom "X" (F64.pow2 (-600)) (F64.pow2 1023) in
  F64.valid (sigma a) = true /\ F64.valid (epsilon a) = true /\
  F64.leb F64.zero (sigma a) = true /\ F64.leb F64.zero (epsilon a) = true /\
  lorentz_berthelot a a = Ret (F64.inf, F64.zero) /\
  F64.eqb F64.inf (sigma a) = false /\
  F64.eqb F64.zero (epsilon a) = false.
Proof. vm_compute. repeat split. Qed.

(** C10 (as amended).  [lorentz_berthelot] raises exactly when the product
    [epsilon1 * epsilon2], as computed, is strictly negative, and the error
    is then the domain error of the square root; when the computed product
    is non-negative (a zero of either sign included) it returns the mean of
    the sigmas and the root of the product. *)
Theorem lorentz_berthelot_domain (a b : AtomType) :
  (forall e, lorentz_berthelot a b = Raise e <->
     (e = ValueError /\
      F64.ltb (F64.mul (epsilon a) (epsilon b)) F64.zero = true)) /\
  (F64.leb F64.zero (F64.mul (epsilon a) (epsilon b)) = true ->
   lorentz_berthelot a b
   = Ret (F64.div (F64.add (sigma a) (sigma b)) lit_2_0,
          F64.sqrt (F64.mul (epsilon a) (epsilon b)))).
Proof.
  rewrite lorentz_berthelot_eq. unfold Py.math_sqrt.
  set (p := F64.mul (epsilon a) (epsilon b)). split.
  - intro e. split.
    + destruct (F64.is_nan (F64.sqrt p) && negb (F64.is_nan p)) eqn:Hn;
        cbn [res_bind]; [|discriminate].
      inversion 1; subst. split; [reflexivity|].
      apply andb_prop in Hn as [Hs Hp].
      destruct p as [s|s| |s m ex]; try destruct s; try discriminate;
        try reflexivity.
      rewrite F64Facts.sqrt_not_nan in Hs by reflexivity. discriminate.
    + intros [-> Hlt]. apply F64Facts.sqrt_negative in Hlt as [-> ->].
      reflexivity.
  - intro Hle. now rewrite (F64Facts.sqrt_not_nan _ Hle).
Qed.

Lemma lorentz_berthelot_domain_witness :
  lorentz_berthelot (mkAtom "A" (F64.of_Z (-1)) (F64.of_Z 1))
                    (mkAtom "B" (F64.of_Z 4) (F64.of_Z 3))
  = Raise ValueError
  /\ lorentz_berthelot (mkAtom "A" (F64.of_Z 9) (F64.of_Z 1))
                       (mkAtom "B" (F64.of_Z 4) (F64.of_Z 3))
     = Ret (F64.of_Z 2, F64.of_Z 6).
Proof.
  split.
  - apply (proj1 (lorentz_berthelot_domain _ _)). split; reflexivity.
  - pose proof (proj2 (lorentz_berthelot_domain
      (mkAtom "A" (F64.of_Z 9) (F64.of_Z 1))
      (mkAtom "B" (F64.of_Z 4) (F64.of_Z 3))) eq_refl) as H.
    vm_compute in H. vm_compute. exact H.
Defined.

(** C10 (as stated) fails where the product underflows: with
    [epsilon1 = -2^-600] and [epsilon2 = 2^-600] exactly one epsilon is
    negative, the computed product is [-0.0], and the call returns
    [(1.0, -0.0)] instead of raising. *)
Lemma lorentz_berthelot_underflow :
  F64.ltb (F64.neg (F64.pow2 (-600))) F64.zero = true /\
  F64.ltb F64.zero (F64.pow2 (-600)) = true /\
  lorentz_berthelot (mkAtom "A" (F64.neg (F64.pow2 (-600))) (F64.of_Z 1))
                    (mkAtom "B" (F64.pow2 (-600)) (F64.of_Z 1))
  = Ret (F64.of_Z 1, S754_zero true).
Proof. repeat split; vm_compute; reflexivity. Qed.

(** ** The table writer: pairs and headers *)

Lemma run_ret_for_pairs (fs : Py.filesystem)
  (atoms_list : list AtomType) (start_r end_r d : float)
  (filename : string) :
  outcome (generate_interaction_tables fs atoms_list start_r end_r d filename)
    = Ret tt ->
  exists steps,
    grid_steps start_r end_r d = Ret steps /\
    for_pairs steps start_r d (combinations_with_replacement2 atoms_list)
    = (file_chunks
         (generate_interaction_tables fs atoms_list start_r end_r d filename),
       Ret tt).
Proof.
  intro H. destruct (run_ret_steps _ _ _ _ _ _ H) as [steps Hs].
  exists steps. split; [exact Hs|].
  destruct (run_chunks fs atoms_list _ _ _ filename _ Hs
              (run_ret_open _ _ _ _ _ _ H)) as [Hc Ho].
  rewrite Hc. rewrite Ho in H. rewrite <- H. apply surjective_pairing.
Qed.

Lemma run_headers_prefix (fs : Py.filesystem)
  (atoms_list : list AtomType) (start_r end_r d : float)
  (filename : string) :
  exists k,
    headers (file_chunks
      (generate_interaction_tables fs atoms_list start_r end_r d filename))
    = firstn k (map pair_header (combinations_with_replacement2 atoms_list)).
Proof.
  destruct (run_cases fs atoms_list start_r end_r d filename)
    as [[x Hx]|(steps & _ & _ & Hc & _)].
  - rewrite Hx. now exists O.
  - rewrite Hc. apply for_pairs_headers_prefix.
Qed.

Lemma run_ret_headers (fs : Py.filesystem)
  (atoms_list : list AtomType) (start_r end_r d : float)
  (filename : string) :
  outcome (generate_interaction_tables fs atoms_list start_r end_r d filename)
    = Ret tt ->
  headers (file_chunks
    (generate_interaction_tables fs atoms_list start_r end_r d filename))
  = map pair_header (combinations_with_replacement2 atoms_list).
Proof.
  intro H. destruct (run_ret_for_pairs _ _ _ _ _ _ H) as (steps & _ & Hf).
  exact (for_pairs_ret_headers _ _ _ _ _ Hf).
Qed.

(** C2 (as amended).  For [N] atoms the writer enumerates the [N(N+1)/2]
    pairs [(atoms[i], atoms[j])], [i <= j], each index pair once, and
    processes them in that order.  The header lines of the file are those
    of the first pairs of the enumeration, one line [TYPE name1name2] per
    pair processed; when the run completes without raising there is one
    for every pair: [N(N+1)/2] header lines. *)
Theorem pair_enumeration_headers (fs : Py.filesystem)
  (atoms_list : list AtomType)
  (start_r end_r d : float) (filename : string) (dflt : AtomType) :
  let N := List.length atoms_list in
  let pairs := combinations_with_replacement2 atoms_list in
  let r := generate_interaction_tables fs atoms_list start_r end_r d filename in
  (2 * List.length pairs = N * (N + 1))%nat /\
  pairs = map (fun ij => (nth (fst ij) atoms_list dflt,
                          nth (snd ij) atoms_list dflt))
              (combinations_with_replacement2 (seq 0 N)) /\
  NoDup (combinations_with_replacement2 (seq 0 N)) /\
  (forall i j, In (i, j) (combinations_with_replacement2 (seq 0 N))
               <-> (i <= j < N)%nat) /\
  (forall p, pair_header p
             = ("TYPE " ++ (name (fst p) ++ name (snd p)) ++ Fmt.nl)%string) /\
  (exists k, headers (file_chunks r) = firstn k (map pair_header pairs)) /\
  (outcome r = Ret tt ->
   headers (file_chunks r) = map pair_header pairs /\
   (2 * List.length (headers (file_chunks r)) = N * (N + 1))%nat).
Proof.
  intros N pairs r. repeat split.
  - apply cwr2_length.
  - unfold pairs. rewrite (list_by_index atoms_list dflt) at 1.
    rewrite cwr2_map. reflexivity.
  - apply cwr2_seq_nodup.
  - apply cwr2_seq_in in H. lia.
  - apply cwr2_seq_in in H. lia.
  - intro H. apply cwr2_seq_in. lia.
  - apply run_headers_prefix.
  - apply run_ret_headers; assumption.
  - unfold r. rewrite run_ret_headers by assumption.
    rewrite length_map. apply cwr2_length.
Qed.

(** A run on two atoms and three distances: three headers. *)
Lemma pair_enumeration_headers_witness :
  headers (file_chunks (generate_interaction_tables writable_everywhere
    [mkAtom "OW0" (F64.of_decimal 1070857 4) (F64.of_decimal 31665 4);
     mkAtom "HW0" (F64.of_Z 0) (F64.of_Z 0)]
    (F64.of_Z 1) (F64.of_Z 2) (F64.of_decimal 5 1) default_filename))
  = [("TYPE OW0OW0" ++ Fmt.nl)%string; ("TYPE OW0HW0" ++ Fmt.nl)%string;
     ("TYPE HW0HW0" ++ Fmt.nl)%string].
Proof.
  apply (proj1 (proj2 (proj2 (proj2 (proj2 (proj2 (proj2
    (pair_enumeration_headers writable_everywhere
       [mkAtom "OW0" (F64.of_decimal 1070857 4) (F64.of_decimal 31665 4);
        mkAtom "HW0" (F64.of_Z 0) (F64.of_Z 0)]
       (F64.of_Z 1) (F64.of_Z 2) (F64.of_decimal 5 1) default_filename
       (mkAtom "" F64.zero F64.zero)))))))
    ltac:(vm_compute; reflexivity))).
Defined.

(** C2 (as stated) fails when a pair cannot be tabulated: with the atoms
    [A] ([sigma = 1e60]) and [B] on the grid 1.0, 1.5, 2.0 the first row of
    the first block overflows; the run stops there with one header written
    out of three. *)
Lemma pair_enumeration_interrupted :
  let r := generate_interaction_tables writable_everywhere
             [mkAtom "A" (F64.of_Z 1) (F64.of_Z (10 ^ 60));
              mkAtom "B" (F64.of_Z 1) (F64.of_Z 1)]
             (F64.of_Z 1) (F64.of_Z 2) (F64.of_decimal 5 1) default_filename in
  outcome r = Raise OverflowError /\
  headers (file_chunks r) = [("TYPE AA" ++ Fmt.nl)%string] /\
  List.length (headers (file_chunks r)) <> (2 * (2 + 1) / 2)%nat.
Proof. vm_compute. repeat split. discriminate. Qed.

(** ** Where a row comes from *)

Lemma not_skipped_nonzero (r : float) :
  F64.leb r lit_1e_10 = false -> F64.eqb r (F64.of_Z 0) = false.
Proof.
  destruct r as [s|s| |s m e]; intro H;
    [| destruct s; reflexivity | reflexivity | destruct s; reflexivity].
  destruct s; vm_compute in H; discriminate H.
Qed.

Lemma emit_all_provenance (e s : float) (rs : list float) :
  Forall (fun line => exists r E F,
            In r rs /\ compute_lennard_jones e s r = Ret (E, F) /\
            line = row r E F)
    (fst (emit_all e s rs)).
Proof.
  induction rs as [|r rs IH]; cbn [emit_all]; [constructor|].
  unfold emit.
  destruct (compute_lennard_jones e s r) as [[E F]|x] eqn:Hc;
    cbn [res_bind]; [|constructor].
  destruct (emit_all e s rs) as [w o]. cbn [fst] in *.
  constructor.
  - exists r, E, F. repeat split; [now left | exact Hc].
  - eapply Forall_impl; [|exact IH].
    intros line (r' & E' & F' & Hin & Hc' & ->).
    exists r', E', F'. repeat split; [now right | exact Hc'].
Qed.

Lemma pair_block_provenance (steps : Z) (start_r d : float)
  (a1 a2 : AtomType) :
  Forall (fun line =>
            line = header a1 a2 \/
            row_of_pair (Py.range_len (steps + 1)) start_r d (a1, a2) line)
    (fst (pair_block steps start_r d a1 a2)).
Proof.
  rewrite pair_block_eq.
  destruct (lorentz_berthelot a1 a2) as [[s e]|x] eqn:Hlb; [|constructor].
  cbn [fst]. constructor; [now left|].
  eapply Forall_impl; [|apply emit_all_provenance].
  intros line (r & E & F & Hin & Hc & ->). right.
  apply filter_In in Hin as [Hin Hk].
  apply negb_true_iff in Hk. unfold skipped in Hk.
  exists s, e, r, E, F. repeat split; auto using not_skipped_nonzero.
Qed.

Lemma for_pairs_provenance (steps : Z) (start_r d : float)
  (pairs : list (AtomType * AtomType)) :
  Forall (fun line =>
            exists p, In p pairs /\
              (line = pair_header p \/
               row_of_pair (Py.range_len (steps + 1)) start_r d p line))
    (fst (for_pairs steps start_r d pairs)).
Proof.
  induction pairs as [|[a1 a2] rest IH]; [constructor|].
  assert (Hb : Forall (fun line =>
      exists p, In p ((a1, a2) :: rest) /\
        (line = pair_header p \/
         row_of_pair (Py.range_len (steps + 1)) start_r d p line))
    (fst (pair_block steps start_r d a1 a2))).
  { eapply Forall_impl; [|apply pair_block_provenance].
    intros line H. exists (a1, a2). split; [now left | exact H]. }
  rewrite for_pairs_cons.
  destruct (pair_block steps start_r d a1 a2) as [w [[]|x]]; cbn [fst] in *;
    [|exact Hb].
  apply Forall_app. split; [exact Hb|].
  eapply Forall_impl; [|exact IH].
  intros line (p & Hp & H). exists p. split; [now right | exact H].
Qed.

(** ** The format of a row *)

Lemma string_length_app (s t : string) :
  String.length (s ++ t) = (String.length s + String.length t)%nat.
Proof. induction s as [|c s IH]; cbn; [reflexivity | now rewrite IH]. Qed.

Lemma spaces_length (n : nat) : String.length (Fmt.spaces n) = n.
Proof. induction n; cbn; [reflexivity | now rewrite IHn]. Qed.





































(** ** The table writer: the data loop *)












(** ** The table writer: the grid *)

Lemma samples_nth (n k : nat) (r d : float) :
  (k < n)%nat ->
  nth k (samples n r d) F64.nan = Nat.iter k (fun x => F64.add x d) r.
Proof.
  revert k r. induction n as [|n IH]; intros k r Hk; [lia|].
  destruct k as [|k]; [reflexivity|].
  cbn [samples nth]. rewrite IH by lia.
  now rewrite Nat.iter_succ_r.
Qed.

Lemma int_truncates (q : float) (steps : Z) :
  Py.int q = Ret steps ->
  (F64.sign q = false -> steps = float_floor q) /\
  (F64.sign q = true -> steps = - float_floor (F64.neg q)).
Proof.
  destruct q as [s|s| |s m e]; cbn [Py.int]; try discriminate.
  - inversion 1. split; reflexivity.
  - inversion 1 as [Hs]. clear Hs.
    assert (Ha : match e with
                 | Zneg p => Z.shiftr (Zpos m) (Zpos p)
                 | _ => Z.shiftl (Zpos m) e
                 end
                 = match e with
                   | Zneg p => Zpos m / 2 ^ Zpos p
                   | _ => Zpos m * 2 ^ e
                   end).
    { destruct e as [|p|p].
      - rewrite Z.shiftl_0_r. lia.
      - apply Z.shiftl_mul_pow2. lia.
      - apply Z.shiftr_div_pow2. lia. }
    rewrite Ha. cbn [F64.sign F64.neg float_floor].
    split; intros ->; cbn [negb]; reflexivity.
Qed.

Lemma Forall2_kept_rows (e s : float) (rs : list float) (rows : list string)
  (n : nat) :
  List.length rs = n ->
  Forall2 (fun r line => emit e s r = Ret line) (kept rs) rows ->
  List.length rows = (n - List.length (filter skipped rs))%nat.
Proof.
  intros Hn H. apply Forall2_length in H. rewrite <- H.
  pose proof (kept_count rs). lia.
Qed.

(** C3 (as amended).  The number of steps is the quotient
    [(end - start) / step] truncated toward zero, which is its floor when
    the quotient is not negative.  The data loop of a pair visits
    [steps + 1] distances (none when that is not positive), each obtained
    from the previous one by adding the step, in floating point, starting
    from [start].  A distance [r <= 1e-10] writes no row while the position
    still advances; when the run completes without raising, the block of a
    pair is its header followed by one row per retained distance, that is
    [steps + 1] rows minus the skipped ones. *)
Theorem grid_rows (fs : Py.filesystem)
  (atoms_list : list AtomType) (start_r end_r d : float)
  (filename : string) (steps : Z) :
  grid_steps start_r end_r d = Ret steps ->
  let n := Py.range_len (steps + 1) in
  let r := generate_interaction_tables fs atoms_list start_r end_r d filename in
  (exists q, Py.truediv (F64.sub end_r start_r) d = Ret q /\
             Py.int q = Ret steps /\
             (F64.sign q = false -> steps = float_floor q) /\
             (F64.sign q = true -> steps = - float_floor (F64.neg q))) /\
  List.length (samples n start_r d) = n /\
  (forall k, (k < n)%nat ->
     nth k (samples n start_r d) F64.nan
     = Nat.iter k (fun x => F64.add x d) start_r) /\
  (outcome r = Ret tt ->
   exists blocks,
     file_chunks r = List.concat blocks /\
     Forall2 (fun p b =>
                exists s e rows,
                  lorentz_berthelot (fst p) (snd p) = Ret (s, e) /\
                  b = pair_header p :: rows /\
                  Forall2 (fun x line => emit e s x = Ret line)
                    (kept (samples n start_r d)) rows /\
                  List.length rows
                  = (n - List.length (filter skipped (samples n start_r d)))%nat)
       (combinations_with_replacement2 atoms_list) blocks).
Proof.
  intros Hs n r. repeat split.
  - unfold grid_steps in Hs.
    destruct (Py.truediv (F64.sub end_r start_r) d) as [q|x] eqn:Hq;
      [|discriminate].
    cbn [res_bind] in Hs. exists q.
    split; [reflexivity|]. split; [exact Hs|]. now apply int_truncates.
  - apply samples_length.
  - intros k Hk. now apply samples_nth.
  - intro Ho.
    destruct (run_ret_for_pairs _ _ _ _ _ _ Ho) as (steps' & Hs' & Hf).
    rewrite Hs in Hs'. inversion Hs'; subst steps'.
    destruct (for_pairs_ret_blocks _ _ _ _ _ Hf) as (blocks & Hc & Hb).
    exists blocks. split; [exact Hc|].
    eapply Forall2_impl; [|exact Hb].
    intros p b (s & e & rows & Hlb & -> & Hrows).
    exists s, e, rows. repeat split; auto.
    eapply Forall2_kept_rows; [apply samples_length | exact Hrows].
Qed.

(** The grid 1.0, 1.5, 2.0 on one atom: two steps, three rows. *)
Lemma grid_rows_witness :
  exists blocks,
    file_chunks (generate_interaction_tables writable_everywhere
      [mkAtom "HW0" (F64.of_Z 0) (F64.of_Z 0)]
      (F64.of_Z 1) (F64.of_Z 2) (F64.of_decimal 5 1) default_filename)
    = List.concat blocks /\
    Forall2 (fun p b =>
               exists s e rows,
                 lorentz_berthelot (fst p) (snd p) = Ret (s, e) /\
                 b = pair_header p :: rows /\
                 Forall2 (fun x line => emit e s x = Ret line)
                   (kept (samples (Py.range_len (2 + 1)) (F64.of_Z 1)
                            (F64.of_decimal 5 1))) rows /\
                 List.length rows
                 = (Py.range_len (2 + 1)
                    - List.length (filter skipped
                        (samples (Py.range_len (2 + 1)) (F64.of_Z 1)
                           (F64.of_decimal 5 1))))%nat)
      (combinations_with_replacement2 [mkAtom "HW0" (F64.of_Z 0) (F64.of_Z 0)])
      blocks.
Proof.
  exact (proj2 (proj2 (proj2 (grid_rows writable_everywhere
    [mkAtom "HW0" (F64.of_Z 0) (F64.of_Z 0)]
    (F64.of_Z 1) (F64.of_Z 2) (F64.of_decimal 5 1) default_filename 2
    ltac:(vm_compute; reflexivity)))) ltac:(vm_compute; reflexivity)).
Defined.

(** C3 (as stated) fails on the grid of the configuration: the
    seventh distance visited, reached by six additions of 0.01 to 0.01, is
    not [0.01 + 6 * 0.01]; and it fails on the grid from 2.0 to 1.25 by
    0.5, whose quotient -1.5 is truncated to -1 and not floored to -2. *)
Lemma grid_not_as_stated :
  ~ grid_as_stated start_dist end_dist delta_r /\
  ~ grid_as_stated (F64.of_Z 2) (F64.of_decimal 125 2) (F64.of_decimal 5 1).
Proof.
  split; intros (q & Hq & Hs & Hk).
  - vm_compute in Hq. inversion Hq; subst q.
    specialize (Hk 6 ltac:(vm_compute; split; discriminate)).
    apply (f_equal (fun x => F64.eqb x (grid_point start_dist delta_r 6)))
      in Hk.
    vm_compute in Hk. discriminate Hk.
  - vm_compute in Hq. inversion Hq; subst q.
    vm_compute in Hs. discriminate.
Qed.

(** ** The grid of the configuration *)

Lemma substring_app_prefix (a b : string) :
  substring 0 (String.length a) (a ++ b) = a.
Proof.
  induction a as [|c a IH]; cbn.
  - destruct b; reflexivity.
  - now rewrite IH.
Qed.

Lemma distance_column_row (r E F : float) :
  String.length (Fmt.field 10 4 r) = 10%nat ->
  distance_column (row r E F) = Fmt.field 10 4 r.
Proof.
  intro H. unfold distance_column, row. rewrite <- H at 1.
  apply substring_app_prefix.
Qed.

Lemma emit_distance_column (e s r : float) (line : string) :
  String.length (Fmt.field 10 4 r) = 10%nat ->
  emit e s r = Ret line -> distance_column line = Fmt.field 10 4 r.
Proof.
  intros Hl. unfold emit.
  destruct (compute_lennard_jones e s r) as [[E F]|x]; cbn [res_bind];
    [|discriminate].
  inversion 1. now apply distance_column_row.
Qed.

Section Forall2Ends.

Context {A B : Type} (R : A -> B -> Prop).

Lemma Forall2_hd (l : list A) (l' : list B) (a : A) (b : B) :
  Forall2 R l l' -> l <> [] -> R (hd a l) (hd b l').
Proof. destruct 1; [congruence | intros _; assumption]. Qed.

Lemma Forall2_last (l : list A) (l' : list B) (a : A) (b : B) :
  Forall2 R l l' -> l <> [] -> R (last l a) (last l' b).
Proof.
  induction 1 as [|x y l l' Hxy Hl IH]; [congruence|]. intros _.
  destruct Hl as [|x' y' l l' Hxy' Hl]; [exact Hxy|].
  apply IH. discriminate.
Qed.

End Forall2Ends.

(** The retained distances of the grid 0.01, 0.02, ..., 10.0. *)
Lemma default_grid_kept :
  let K := kept (samples 1000 start_dist delta_r) in
  List.length K = 1000%nat /\
  Fmt.field 10 4 (hd F64.nan K) = "0.0100    "%string /\
  Fmt.field 10 4 (last K F64.nan) = "10.0000   "%string.
Proof. vm_compute. repeat split. Qed.

Lemma default_grid_blocks (fs : Py.filesystem)
  (atoms_list : list AtomType) (filename : string) :
  let r := generate_interaction_tables fs atoms_list start_dist end_dist delta_r
             filename in
  outcome r = Ret tt ->
  exists blocks,
    file_chunks r = List.concat blocks /\
    Forall2 (fun p b =>
               exists rows,
                 b = pair_header p :: rows /\
                 List.length rows = 1000%nat /\
                 distance_column (hd ""%string rows) = "0.0100    "%string /\
                 distance_column (last rows ""%string) = "10.0000   "%string)
      (combinations_with_replacement2 atoms_list) blocks.
Proof.
  intros r Ho.
  destruct (run_ret_for_pairs _ _ _ _ _ _ Ho) as (steps & Hs & Hf).
  assert (Hsteps : grid_steps start_dist end_dist delta_r = Ret 999)
    by (vm_compute; reflexivity).
  rewrite Hsteps in Hs. inversion Hs; subst steps.
  destruct (for_pairs_ret_blocks _ _ _ _ _ Hf) as (blocks & Hc & Hb).
  exists blocks. split; [exact Hc|].
  eapply Forall2_impl; [|exact Hb].
  intros p b (s & e & rows & _ & -> & Hrows).
  change (Py.range_len (999 + 1)) with 1000%nat in Hrows.
  destruct default_grid_kept as (HK & Hfirst & Hlast).
  assert (Hne : kept (samples 1000 start_dist delta_r) <> []).
  { clear - HK. intro H0. rewrite H0 in HK. discriminate HK. }
  exists rows. split; [reflexivity|]. split; [|split].
  - apply Forall2_length in Hrows. now rewrite <- Hrows.
  - rewrite <- Hfirst.
    apply (emit_distance_column e s); [now rewrite Hfirst|].
    exact (Forall2_hd _ _ _ F64.nan ""%string Hrows Hne).
  - rewrite <- Hlast.
    apply (emit_distance_column e s); [now rewrite Hlast|].
    exact (Forall2_last _ _ _ F64.nan ""%string Hrows Hne).
Qed.

(** C7.  On the grid [start = 0.01], [end = 10.0], [step = 0.01] there are
    999 steps and no distance of the 1000 visited is at or below 1e-10.
    The run of the script on its three atoms, wherever its file can be
    opened, completes, and the block of each of its six pairs has exactly
    1000 rows, the first with the distance [0.0100] and the last with the
    distance [10.0000]; the same holds for any list of atoms whose run on
    this grid completes. *)
Theorem default_grid_coverage :
  grid_steps start_dist end_dist delta_r = Ret 999 /\
  filter skipped (samples (Py.range_len (999 + 1)) start_dist delta_r) = [] /\
  (forall fs : Py.filesystem,
   Py.open_w fs default_filename = Ret tt ->
   let r := generate_interaction_tables fs atoms start_dist end_dist delta_r
              default_filename in
   outcome r = Ret tt /\
   exists blocks,
     List.length blocks = 6%nat /\
     file_chunks r = List.concat blocks /\
     Forall2 (fun p b =>
                exists rows,
                  b = pair_header p :: rows /\
                  List.length rows = 1000%nat /\
                  distance_column (hd ""%string rows) = "0.0100    "%string /\
                  distance_column (last rows ""%string) = "10.0000   "%string)
       (combinations_with_replacement2 atoms) blocks) /\
  (forall (fs : Py.filesystem) atoms_list filename,
     let r := generate_interaction_tables fs atoms_list start_dist end_dist
                delta_r filename in
     outcome r = Ret tt ->
     exists blocks,
       file_chunks r = List.concat blocks /\
       Forall2 (fun p b =>
                  exists rows,
                    b = pair_header p :: rows /\
                    List.length rows = 1000%nat /\
                    distance_column (hd ""%string rows) = "0.0100    "%string /\
                    distance_column (last rows ""%string)
                    = "10.0000   "%string)
         (combinations_with_replacement2 atoms_list) blocks).
Proof.
  assert (Hs : grid_steps start_dist end_dist delta_r = Ret 999)
    by (vm_compute; reflexivity).
  split; [exact Hs|].
  split; [vm_compute; reflexivity|].
  split; [|exact default_grid_blocks].
  intros fs Hopen r.
  assert (Ho : outcome r = Ret tt).
  { unfold r. rewrite (proj2 (run_chunks _ _ _ _ _ _ _ Hs Hopen)).
    vm_compute. reflexivity. }
  split; [exact Ho|].
  destruct (default_grid_blocks fs atoms default_filename Ho)
    as (blocks & Hc & Hb).
  exists blocks. split; [|split; assumption].
  apply Forall2_length in Hb. rewrite <- Hb. reflexivity.
Qed.

(** Where every name can be opened, the run of the script completes. *)
Lemma default_grid_coverage_witness :
  outcome (generate_interaction_tables writable_everywhere atoms start_dist
             end_dist delta_r default_filename) = Ret tt.
Proof.
  exact (proj1 (proj1 (proj2 (proj2 default_grid_coverage))
                  writable_everywhere eq_refl)).
Defined.

(** ** The scenario of two atoms *)



(** * Further properties of the three functions *)

(** ** Zero parameters *)

Lemma mul_zero_l (s : bool) (y : float) :
  F64.is_zero (F64.mul (S754_zero s) y) || F64.is_nan (F64.mul (S754_zero s) y)
  = true.
Proof. destruct y as [sy|sy| |sy my ey]; reflexivity. Qed.

Lemma mul_nan_l (y : float) : F64.mul S754_nan y = S754_nan.
Proof. destruct y; reflexivity. Qed.

Lemma mul_zero_or_nan_l (c y : float) :
  F64.is_zero c || F64.is_nan c = true ->
  F64.is_zero (F64.mul c y) || F64.is_nan (F64.mul c y) = true.
Proof.
  destruct c as [s|s| |s m e]; try discriminate; intros _.
  - apply mul_zero_l.
  - now rewrite mul_nan_l.
Qed.

Lemma mul_finite_zero (x : float) (s : bool) :
  F64.is_finite x = true -> F64.is_zero (F64.mul x (S754_zero s)) = true.
Proof. destruct x as [sx|sx| |sx mx ex]; try discriminate; reflexivity. Qed.

Lemma mul_const_zero (k : Z) (x : float) :
  F64.is_finite (F64.of_Z k) = true -> F64.is_zero x = true ->
  F64.is_zero (F64.mul (F64.of_Z k) x) = true.
Proof.
  intros Hk Hx. destruct x as [s|s| |s m e]; try discriminate.
  now apply mul_finite_zero.
Qed.

Lemma div_zero_l (s : bool) (r : float) :
  F64.is_zero r = false ->
  F64.is_zero (F64.div (S754_zero s) r) || F64.is_nan (F64.div (S754_zero s) r)
  = true.
Proof. destruct r as [sr|sr| |sr mr er]; try discriminate; reflexivity. Qed.

Lemma div_zero_l_zero (s : bool) (r : float) :
  F64.is_zero r = false -> F64.is_nan r = false ->
  F64.is_zero (F64.div (S754_zero s) r) = true.
Proof. destruct r as [sr|sr| |sr mr er]; try discriminate; reflexivity. Qed.

Lemma float_pow_zero (x : float) (n : positive) :
  F64.is_zero x = true -> Z.odd (Zpos n) = false ->
  Py.float_pow x n = Ret F64.zero.
Proof.
  intros Hx Hn. destruct x as [s|s| |s m e]; try discriminate.
  unfold Py.float_pow. now rewrite Hn.
Qed.

(** X2.  A pair without interaction ([epsilon == 0] and [sigma == 0], a
    massless site) has energy 0 and force 0 at every distance that is
    neither zero nor NaN: the call returns, whatever the distance. *)
Theorem massless_pair_is_zero (epsilon sigma r : float) :
  F64.is_zero epsilon = true -> F64.is_zero sigma = true ->
  F64.is_zero r = false -> F64.is_nan r = false ->
  exists E F,
    compute_lennard_jones epsilon sigma r = Ret (E, F) /\
    F64.is_zero E = true /\ F64.is_zero F = true.
Proof.
  intros He Hs Hr Hn.
  unfold compute_lennard_jones. rewrite F64Facts.eqb_zero_is_zero, Hr.
  rewrite !(truediv_nonzero _ _ Hr). cbn [res_bind].
  destruct sigma as [ss|ss| |ss ms es]; try discriminate.
  pose proof (div_zero_l_zero ss r Hr Hn) as Hq.
  rewrite (float_pow_zero _ 6 Hq eq_refl). cbn [res_bind].
  rewrite (float_pow_zero F64.zero 2 eq_refl eq_refl). cbn [res_bind].
  eexists. eexists. split; [reflexivity|].
  destruct epsilon as [se|se| |se me ee]; try discriminate.
  split.
  - destruct se; reflexivity.
  - assert (Hc : F64.is_zero (F64.mul (F64.of_Z 24) (S754_zero se)) = true)
      by (destruct se; reflexivity).
    destruct (F64.mul (F64.of_Z 24) (S754_zero se)) as [sc|sc| |sc mc ec];
      try discriminate.
    pose proof (div_zero_l_zero sc r Hr Hn) as Hd.
    destruct (F64.div (S754_zero sc) r) as [sd|sd| |sd md ed];
      try discriminate.
    destruct sd; reflexivity.
Qed.

Lemma massless_pair_is_zero_witness :
  exists E F,
    compute_lennard_jones (F64.of_Z 0) (F64.of_Z 0) (F64.of_decimal 25 1)
    = Ret (E, F) /\
    F64.is_zero E = true /\ F64.is_zero F = true.
Proof.
  exact (massless_pair_is_zero (F64.of_Z 0) (F64.of_Z 0) (F64.of_decimal 25 1)
           eq_refl eq_refl eq_refl eq_refl).
Defined.

(** X3.  With [epsilon == 0] and a distance that is not zero, an energy or
    a force that [compute_lennard_jones] returns is zero or NaN, never
    another number, whatever sigma. *)
Theorem zero_epsilon_no_interaction (epsilon sigma r E F : float) :
  F64.is_zero epsilon = true -> F64.is_zero r = false ->
  compute_lennard_jones epsilon sigma r = Ret (E, F) ->
  F64.is_zero E || F64.is_nan E = true /\
  F64.is_zero F || F64.is_nan F = true.
Proof.
  intros He Hr. unfold compute_lennard_jones.
  rewrite F64Facts.eqb_zero_is_zero, Hr.
  rewrite !(truediv_nonzero _ _ Hr). cbn [res_bind].
  destruct (Py.float_pow (F64.div sigma r) 6) as [sr6|x]; cbn [res_bind];
    [|discriminate].
  destruct (Py.float_pow sr6 2) as [sr12|x]; cbn [res_bind]; [|discriminate].
  intro H. inversion H; subst E F. clear H.
  destruct epsilon as [se|se| |se me ee]; try discriminate.
  split.
  - apply mul_zero_or_nan_l.
    destruct se; reflexivity.
  - apply mul_zero_or_nan_l.
    assert (Hc : F64.is_zero (F64.mul (F64.of_Z 24) (S754_zero se)) = true)
      by (destruct se; reflexivity).
    destruct (F64.mul (F64.of_Z 24) (S754_zero se)) as [sc|sc| |sc mc ec];
      try discriminate.
    now apply div_zero_l.
Qed.

Lemma zero_epsilon_no_interaction_witness :
  F64.is_zero (S754_zero true) || F64.is_nan (S754_zero true) = true /\
  F64.is_zero (S754_zero true) || F64.is_nan (S754_zero true) = true.
Proof.
  apply (zero_epsilon_no_interaction (F64.of_Z 0) (F64.of_decimal 158325 5)
           (F64.of_Z 2) (S754_zero true) (S754_zero true) eq_refl eq_refl).
  vm_compute. reflexivity.
Defined.

(** ** The distance [r == sigma] *)

Lemma new_location_zero (nb : Z) : new_location nb 0 = loc_Exact.
Proof. unfold new_location. destruct (Z.even nb); reflexivity. Qed.

Lemma SFdiv_core_self (m : positive) (e : Z) :
  SFdiv_core_binary F64.prec F64.emax (Zpos m) e (Zpos m) e
  = (2 ^ 53, -53, loc_Exact).
Proof.
  unfold SFdiv_core_binary. rewrite !Z.sub_diag.
  change (Z.min (fexp F64.prec F64.emax 0) 0) with (-53).
  change (0 - -53) with 53.
  rewrite Z.shiftl_mul_pow2 by lia. rewrite Rounding.div_eucl_pair.
  rewrite (Z.mul_comm (Zpos m)), Z.div_mul, Z.mod_mul by discriminate.
  now rewrite new_location_zero.
Qed.

Lemma div_self (s : bool) (m : positive) (e : Z) :
  F64.div (S754_finite s m e) (S754_finite s m e) = F64.of_Z 1.
Proof.
  unfold F64.div, SFdiv. rewrite SFdiv_core_self, xorb_nilpotent.
  vm_compute. reflexivity.
Qed.

(** X4.  At the distance [r == sigma] (finite and not zero) the energy is
    zero, provided [4 * epsilon] does not overflow: the call returns, with
    the force [(24 * epsilon / sigma) * 1.0]. *)
Theorem energy_vanishes_at_sigma (epsilon sigma : float) :
  F64.is_finite sigma = true -> F64.is_zero sigma = false ->
  F64.is_finite (F64.mul (F64.of_Z 4) epsilon) = true ->
  exists E,
    compute_lennard_jones epsilon sigma sigma
    = Ret (E, F64.mul (F64.div (F64.mul (F64.of_Z 24) epsilon) sigma)
                      (F64.of_Z 1)) /\
    F64.is_zero E = true.
Proof.
  intros Hf Hz H4.
  destruct sigma as [s|s| |s m e]; try discriminate.
  unfold compute_lennard_jones. rewrite F64Facts.eqb_zero_is_zero.
  cbn [F64.is_zero]. rewrite !(truediv_nonzero _ _ Hz). cbn [res_bind].
  rewrite div_self.
  change (Py.float_pow (F64.of_Z 1) 6) with (Ret (F64.of_Z 1)).
  cbn [res_bind].
  change (Py.float_pow (F64.of_Z 1) 2) with (Ret (F64.of_Z 1)).
  cbn [res_bind].
  change (F64.sub (F64.of_Z 1) (F64.of_Z 1)) with (S754_zero false).
  change (F64.sub (F64.mul (F64.of_Z 2) (F64.of_Z 1)) (F64.of_Z 1))
    with (F64.of_Z 1).
  eexists. split; [reflexivity|]. now apply mul_finite_zero.
Qed.

Lemma energy_vanishes_at_sigma_witness :
  exists E,
    compute_lennard_jones (F64.of_decimal 1070857 4) (F64.of_decimal 31665 4)
      (F64.of_decimal 31665 4)
    = Ret (E, F64.mul (F64.div (F64.mul (F64.of_Z 24)
                                  (F64.of_decimal 1070857 4))
                         (F64.of_decimal 31665 4))
                      (F64.of_Z 1)) /\
    F64.is_zero E = true.
Proof.
  exact (energy_vanishes_at_sigma (F64.of_decimal 1070857 4)
           (F64.of_decimal 31665 4) eq_refl eq_refl eq_refl).
Defined.

(** ** Signs *)

Lemma binary_round_aux_opp (s : bool) (m e : Z) (l : location) :
  binary_round_aux F64.prec F64.emax (negb s) m e l
  = F64.neg (binary_round_aux F64.prec F64.emax s m e l).
Proof.
  unfold binary_round_aux.
  destruct (shr_fexp F64.prec F64.emax m e l) as [mrs' e'].
  destruct (shr_fexp F64.prec F64.emax _ e' loc_Exact) as [mrs'' e''].
  destruct (shr_m mrs'') as [|p|p]; try reflexivity.
  destruct (e'' <=? F64.emax - F64.prec); reflexivity.
Qed.

Lemma div_opp_l (x y : float) : F64.div (F64.neg x) y = F64.neg (F64.div x y).
Proof.
  destruct x as [sx|sx| |sx mx ex], y as [sy|sy| |sy my ey];
    try reflexivity; try (destruct sx, sy; reflexivity).
  unfold F64.div, F64.neg, SFdiv, SFopp at 1.
  destruct (SFdiv_core_binary F64.prec F64.emax (Zpos mx) ex (Zpos my) ey)
    as [[mz ez] lz].
  rewrite <- negb_xorb_l. apply binary_round_aux_opp.
Qed.

Lemma div_opp_r (x y : float) : F64.div x (F64.neg y) = F64.neg (F64.div x y).
Proof.
  destruct x as [sx|sx| |sx mx ex], y as [sy|sy| |sy my ey];
    try reflexivity; try (destruct sx, sy; reflexivity).
  unfold F64.div, F64.neg, SFdiv, SFopp at 1.
  destruct (SFdiv_core_binary F64.prec F64.emax (Zpos mx) ex (Zpos my) ey)
    as [[mz ez] lz].
  rewrite <- negb_xorb_r. apply binary_round_aux_opp.
Qed.

Lemma mul_opp_l (x y : float) : F64.mul (F64.neg x) y = F64.neg (F64.mul x y).
Proof.
  destruct x as [sx|sx| |sx mx ex], y as [sy|sy| |sy my ey];
    try reflexivity; try (destruct sx, sy; reflexivity).
  unfold F64.mul, F64.neg, SFmul, SFopp at 1.
  rewrite <- negb_xorb_l. apply binary_round_aux_opp.
Qed.

Lemma float_pow_even_opp (x : float) (n : positive) :
  Z.odd (Zpos n) = false -> Py.float_pow (F64.neg x) n = Py.float_pow x n.
Proof.
  intro Hn. unfold Py.float_pow. rewrite Hn.
  destruct x as [s|s| |s m e]; try reflexivity.
  cbn [F64.neg SFopp F64.fabs SFabs]. now rewrite !andb_false_r.
Qed.

Lemma is_zero_neg (x : float) : F64.is_zero (F64.neg x) = F64.is_zero x.
Proof. destruct x; reflexivity. Qed.

(** X5.  The energy and the force depend on sigma through its magnitude
    only: a negated sigma gives the same result, or the same error. *)
Theorem compute_lennard_jones_even_in_sigma (epsilon sigma r : float) :
  compute_lennard_jones epsilon (F64.neg sigma) r
  = compute_lennard_jones epsilon sigma r.
Proof.
  unfold compute_lennard_jones.
  destruct (F64.eqb r (F64.of_Z 0)); [reflexivity|].
  unfold Py.truediv at 1 3.
  destruct (F64.is_zero r); [reflexivity|]. cbn [res_bind].
  now rewrite div_opp_l, (float_pow_even_opp _ 6 eq_refl).
Qed.

(** X6.  At a distance that is not zero, negating the distance keeps the
    energy and negates the force; an overflow is raised alike. *)
Theorem compute_lennard_jones_odd_in_r (epsilon sigma r : float) :
  F64.is_zero r = false ->
  compute_lennard_jones epsilon sigma (F64.neg r)
  = match compute_lennard_jones epsilon sigma r with
    | Ret (E, F) => Ret (E, F64.neg F)
    | Raise e => Raise e
    end.
Proof.
  intro Hr. unfold compute_lennard_jones.
  rewrite !F64Facts.eqb_zero_is_zero, is_zero_neg, Hr.
  assert (Hr' : F64.is_zero (F64.neg r) = false) by now rewrite is_zero_neg.
  rewrite !(truediv_nonzero _ _ Hr), !(truediv_nonzero _ _ Hr').
  cbn [res_bind]. rewrite div_opp_r, (float_pow_even_opp _ 6 eq_refl).
  destruct (Py.float_pow (F64.div sigma r) 6) as [sr6|x]; cbn [res_bind];
    [|reflexivity].
  destruct (Py.float_pow sr6 2) as [sr12|x]; cbn [res_bind]; [|reflexivity].
  now rewrite div_opp_r, mul_opp_l.
Qed.

Lemma compute_lennard_jones_odd_in_r_witness :
  compute_lennard_jones (F64.of_Z 1) (F64.of_Z 1) (F64.neg (F64.of_Z 2))
  = match compute_lennard_jones (F64.of_Z 1) (F64.of_Z 1) (F64.of_Z 2) with
    | Ret (E, F) => Ret (E, F64.neg F)
    | Raise e => Raise e
    end.
Proof.
  exact (compute_lennard_jones_odd_in_r (F64.of_Z 1) (F64.of_Z 1) (F64.of_Z 2)
           eq_refl).
Defined.

(** ** A zero epsilon in a pair *)

(** X1.  When the epsilon of one atom is zero and the epsilon of the other
    is finite, the mixer returns and the mixed epsilon is zero, whatever the
    signs. *)
Theorem zero_epsilon_propagates (a b : AtomType) :
  (F64.is_zero (epsilon a) = true /\ F64.is_finite (epsilon b) = true) \/
  (F64.is_finite (epsilon a) = true /\ F64.is_zero (epsilon b) = true) ->
  exists sigma_mix epsilon_mix,
    lorentz_berthelot a b = Ret (sigma_mix, epsilon_mix) /\
    F64.is_zero epsilon_mix = true.
Proof.
  intro H. rewrite lorentz_berthelot_eq.
  assert (Hp : F64.is_zero (F64.mul (epsilon a) (epsilon b)) = true).
  { destruct H as [[Ha Hb]|[Ha Hb]];
      destruct (epsilon a) as [sa|sa| |sa ma ea]; try discriminate;
      destruct (epsilon b) as [sb|sb| |sb mb eb]; try discriminate;
      reflexivity. }
  destruct (F64.mul (epsilon a) (epsilon b)) as [s|s| |s m e];
    try discriminate.
  eexists. eexists. split; reflexivity.
Qed.

Lemma zero_epsilon_propagates_witness :
  exists sigma_mix epsilon_mix,
    lorentz_berthelot
      (mkAtom "OW0" (F64.of_decimal 1070857 4) (F64.of_decimal 31665 4))
      (mkAtom "HW0" (F64.of_Z 0) (F64.of_Z 0))
    = Ret (sigma_mix, epsilon_mix) /\
    F64.is_zero epsilon_mix = true.
Proof.
  apply zero_epsilon_propagates. right. split; reflexivity.
Defined.

(** X7.  In every run, complete or not, each line of the file is the
    header of an enumerated pair or a data row of one: its distance is a
    grid distance above the threshold ([r <= 1e-10] is false, so [r] is
    neither zero nor negative), and its energy and force are what
    [compute_lennard_jones] returns at that distance for the parameters
    that [lorentz_berthelot] mixes for the pair.  The values of the branch
    [r == 0] are never written. *)
Theorem rows_come_from_pairs (fs : Py.filesystem)
  (atoms_list : list AtomType)
  (start_r end_r d : float) (filename : string) (steps : Z) :
  grid_steps start_r end_r d = Ret steps ->
  Forall (fun line =>
            exists p, In p (combinations_with_replacement2 atoms_list) /\
              (line = pair_header p \/
               row_of_pair (Py.range_len (steps + 1)) start_r d p line))
    (file_chunks
       (generate_interaction_tables fs atoms_list start_r end_r d filename)).
Proof.
  intro Hs.
  destruct (run_cases fs atoms_list start_r end_r d filename)
    as [[x Hx]|(steps' & Hs' & _ & Hc & _)].
  - rewrite Hx. constructor.
  - rewrite Hs in Hs'. inversion Hs'; subst steps'. rewrite Hc.
    apply for_pairs_provenance.
Qed.

Lemma rows_come_from_pairs_witness :
  Forall (fun line =>
            exists p,
              In p (combinations_with_replacement2
                      [mkAtom "HW0" (F64.of_Z 0) (F64.of_Z 0)]) /\
              (line = pair_header p \/
               row_of_pair (Py.range_len (2 + 1)) (F64.of_Z 1)
                 (F64.of_decimal 5 1) p line))
    (file_chunks
       (generate_interaction_tables writable_everywhere
          [mkAtom "HW0" (F64.of_Z 0) (F64.of_Z 0)]
          (F64.of_Z 1) (F64.of_Z 2) (F64.of_decimal 5 1) default_filename)).
Proof.
  exact (rows_come_from_pairs writable_everywhere
           [mkAtom "HW0" (F64.of_Z 0) (F64.of_Z 0)]
           (F64.of_Z 1) (F64.of_Z 2) (F64.of_decimal 5 1) default_filename 2
           ltac:(vm_compute; reflexivity)).
Defined.

(** ** What is printed, and when the file is opened *)

(** X8.  The two status lines are printed only by a run that completes;
    the first one gives the number of pairs, which is the number of header
    lines of the file and [N(N+1)/2], and the second one the name of the
    file.  A run that raises prints nothing. *)
Theorem status_lines (fs : Py.filesystem)
  (atoms_list : list AtomType) (start_r end_r d : float)
  (filename : string) :
  let r := generate_interaction_tables fs atoms_list start_r end_r d filename in
  let N := List.length atoms_list in
  (outcome r = Ret tt ->
   stdout r
   = [("Computed "
       ++ Fmt.nat_str (List.length (headers (file_chunks r)))
       ++ " interaction pairs.")%string;
      ("Data written to " ++ filename)%string] /\
   (2 * List.length (headers (file_chunks r)) = N * (N + 1))%nat /\
   exists w, file r = Some (filename, w)) /\
  (forall e, outcome r = Raise e -> stdout r = []).
Proof.
  intros r N. split.
  - intro Ho. pose proof (run_ret_headers _ _ _ _ _ _ Ho) as Hh.
    fold r in Hh. rewrite Hh, length_map. split; [|split].
    + subst r. revert Ho. unfold generate_interaction_tables.
      destruct (grid_steps start_r end_r d) as [steps|x]; [|discriminate].
      destruct (Py.open_w fs filename) as [[]|x]; [|discriminate].
      destruct (for_pairs _ _ _ _) as [w [[]|x]]; [reflexivity|discriminate].
    + apply cwr2_length.
    + subst r. revert Ho. unfold generate_interaction_tables.
      destruct (grid_steps start_r end_r d) as [steps|x]; [|discriminate].
      destruct (Py.open_w fs filename) as [[]|x]; [|discriminate].
      destruct (for_pairs _ _ _ _) as [w [[]|x]]; [|discriminate].
      intros _. now exists w.
  - intros e. subst r. unfold generate_interaction_tables.
    destruct (grid_steps start_r end_r d) as [steps|x]; [|reflexivity].
    destruct (Py.open_w fs filename) as [[]|x]; [|reflexivity].
    destruct (for_pairs _ _ _ _) as [w [[]|x]]; [discriminate|reflexivity].
Qed.

Lemma status_lines_witness :
  stdout (generate_interaction_tables writable_everywhere atoms (F64.of_Z 1)
            (F64.of_Z 2) (F64.of_decimal 5 1) default_filename)
  = ["Computed 6 interaction pairs."%string;
     "Data written to OPC_table_01.inp"%string].
Proof.
  pose proof (proj1 (proj1 (status_lines writable_everywhere atoms
                (F64.of_Z 1) (F64.of_Z 2) (F64.of_decimal 5 1)
                default_filename)
              ltac:(vm_compute; reflexivity))) as H.
  rewrite H. vm_compute. reflexivity.
Defined.

(** X9.  The file is opened exactly when the number of steps is defined
    and the system lets the name be opened.  A zero step raises
    [ZeroDivisionError], an infinite quotient [OverflowError] and a NaN
    quotient [ValueError], each before the file is opened, and so does a
    name that cannot be opened, with the error of [open]: no file is
    created or truncated and nothing is printed.  In every other case the
    file exists under the name given, also when the run raises later. *)
Theorem file_opened_iff (fs : Py.filesystem) (atoms_list : list AtomType)
  (start_r end_r d : float) (filename : string) :
  let r := generate_interaction_tables fs atoms_list start_r end_r d filename in
  (F64.is_zero d = true -> r = mkRun None [] (Raise ZeroDivisionError)) /\
  (F64.is_zero d = false ->
   F64.is_inf (F64.div (F64.sub end_r start_r) d) = true ->
   r = mkRun None [] (Raise OverflowError)) /\
  (F64.is_zero d = false ->
   F64.is_nan (F64.div (F64.sub end_r start_r) d) = true ->
   r = mkRun None [] (Raise ValueError)) /\
  (F64.is_zero d = false ->
   F64.is_finite (F64.div (F64.sub end_r start_r) d) = true ->
   (exists steps, grid_steps start_r end_r d = Ret steps) /\
   (forall x, Py.open_w fs filename = Raise x ->
              r = mkRun None [] (Raise x)) /\
   (Py.open_w fs filename = Ret tt ->
    exists w, file r = Some (filename, w))) /\
  ((exists w, file r = Some (filename, w)) <->
   (exists steps, grid_steps start_r end_r d = Ret steps) /\
   Py.open_w fs filename = Ret tt).
Proof.
  intro r. subst r. split; [|split; [|split; [|split]]].
  - intro Hd. apply run_no_steps. unfold grid_steps, Py.truediv.
    now rewrite Hd.
  - intros Hd Hq. apply run_no_steps. unfold grid_steps.
    rewrite (truediv_nonzero _ _ Hd). cbn [res_bind].
    destruct (F64.div (F64.sub end_r start_r) d); try discriminate.
    reflexivity.
  - intros Hd Hq. apply run_no_steps. unfold grid_steps.
    rewrite (truediv_nonzero _ _ Hd). cbn [res_bind].
    destruct (F64.div (F64.sub end_r start_r) d); try discriminate.
    reflexivity.
  - intros Hd Hq.
    assert (Hs : exists steps, grid_steps start_r end_r d = Ret steps).
    { unfold grid_steps. rewrite (truediv_nonzero _ _ Hd). cbn [res_bind].
      destruct (F64.div (F64.sub end_r start_r) d) as [s|s| |s m e];
        try discriminate; cbn [Py.int]; eexists; reflexivity. }
    split; [exact Hs|]. destruct Hs as [steps Hs]. split.
    + intros x Hopen. now apply (run_no_open _ _ _ _ _ _ steps).
    + intro Hopen. unfold generate_interaction_tables. rewrite Hs, Hopen.
      destruct (for_pairs _ _ _ _) as [w [[]|x]]; now exists w.
  - unfold generate_interaction_tables.
    destruct (grid_steps start_r end_r d) as [steps|x].
    + destruct (Py.open_w fs filename) as [[]|x].
      * split; [intros _; split; [now exists steps | reflexivity]|].
        intros _. destruct (for_pairs _ _ _ _) as [w [[]|x]]; now exists w.
      * split; [intros [w Hw]; discriminate Hw|].
        intros [_ H]. discriminate H.
    + split; [intros [w Hw]; discriminate Hw|].
      intros [[steps H] _]. discriminate H.
Qed.

Lemma file_opened_iff_witness :
  generate_interaction_tables writable_everywhere atoms start_dist end_dist
    (F64.of_Z 0) default_filename
  = mkRun None [] (Raise ZeroDivisionError)
  /\ generate_interaction_tables writable_everywhere atoms start_dist
       (F64.pow2 1023) (F64.pow2 (-1000)) default_filename
     = mkRun None [] (Raise OverflowError)
  /\ generate_interaction_tables writable_everywhere atoms F64.inf F64.inf
       (F64.of_Z 1) default_filename
     = mkRun None [] (Raise ValueError)
  /\ generate_interaction_tables read_only atoms start_dist end_dist delta_r
       default_filename
     = mkRun None [] (Raise OSError)
  /\ generate_interaction_tables writable_everywhere atoms start_dist end_dist
       delta_r ""
     = mkRun None [] (Raise OSError)
  /\ exists w,
       file (generate_interaction_tables writable_everywhere
               [mkAtom "A" (F64.of_Z 1) (F64.of_Z (10 ^ 60))]
               (F64.of_Z 1) (F64.of_Z 2) (F64.of_decimal 5 1)
               default_filename)
       = Some (default_filename, w).
Proof.
  pose proof (file_opened_iff writable_everywhere atoms start_dist end_dist
                (F64.of_Z 0) default_filename) as H0.
  pose proof (file_opened_iff writable_everywhere atoms start_dist
                (F64.pow2 1023) (F64.pow2 (-1000)) default_filename) as H1.
  pose proof (file_opened_iff writable_everywhere atoms F64.inf F64.inf
                (F64.of_Z 1) default_filename) as H2.
  pose proof (file_opened_iff read_only atoms start_dist end_dist delta_r
                default_filename) as H3.
  pose proof (file_opened_iff writable_everywhere atoms start_dist end_dist
                delta_r "") as H4.
  pose proof (file_opened_iff writable_everywhere
                [mkAtom "A" (F64.of_Z 1) (F64.of_Z (10 ^ 60))]
                (F64.of_Z 1) (F64.of_Z 2) (F64.of_decimal 5 1)
                default_filename) as H5.
  cbv zeta in H0, H1, H2, H3, H4, H5.
  destruct H0 as (H0 & _), H1 as (_ & H1 & _), H2 as (_ & _ & H2 & _).
  destruct H3 as (_ & _ & _ & H3 & _), H4 as (_ & _ & _ & H4 & _).
  destruct H5 as (_ & _ & _ & H5 & _).
  split; [apply H0; reflexivity|].
  split; [apply H1; vm_compute; reflexivity|].
  split; [apply H2; vm_compute; reflexivity|].
  split; [apply H3; vm_compute; reflexivity|].
  split; [apply H4; vm_compute; reflexivity|].
  apply H5; vm_compute; reflexivity.
Defined.

(** X10.  An empty list of atoms, on a grid whose number of steps is
    defined and with a name that can be opened, is not an error: the file
    is created empty and the run reports zero pairs.  It is the only list
    whose completed run leaves an empty file. *)
Theorem no_atoms_empty_file (fs : Py.filesystem) (atoms_list : list AtomType)
  (start_r end_r d : float) (filename : string) (steps : Z) :
  grid_steps start_r end_r d = Ret steps ->
  Py.open_w fs filename = Ret tt ->
  let r := generate_interaction_tables fs atoms_list start_r end_r d filename in
  (atoms_list = [] ->
   r = mkRun (Some (filename, []))
         ["Computed 0 interaction pairs."%string;
          ("Data written to " ++ filename)%string]
         (Ret tt)) /\
  (outcome r = Ret tt -> file_chunks r = [] -> atoms_list = []).
Proof.
  intros Hs Hopen r. split.
  - intros ->. unfold r, generate_interaction_tables.
    rewrite Hs, Hopen. reflexivity.
  - intros Ho Hc. pose proof (run_ret_headers _ _ _ _ _ _ Ho) as Hh.
    fold r in Hh. rewrite Hc in Hh.
    destruct atoms_list as [|a l]; [reflexivity | discriminate Hh].
Qed.

Lemma no_atoms_empty_file_witness :
  generate_interaction_tables writable_everywhere [] start_dist end_dist
    delta_r default_filename
  = mkRun (Some (default_filename, []))
      ["Computed 0 interaction pairs."%string;
       "Data written to OPC_table_01.inp"%string]
      (Ret tt).
Proof.
  exact (proj1 (no_atoms_empty_file writable_everywhere [] start_dist end_dist
                  delta_r default_filename 999
                  ltac:(vm_compute; reflexivity) eq_refl) eq_refl).
Defined.

(** ** The order of the two atoms of a pair *)

Lemma mix_comm (a b : AtomType) :
  lorentz_berthelot a b = lorentz_berthelot b a.
Proof.
  rewrite !lorentz_berthelot_eq.
  now rewrite (F64Facts.add_comm (sigma a)), (F64Facts.mul_comm (epsilon a)).
Qed.

(** X11.  The block of a pair, its header apart, does not depend on the
    order of the two atoms: the same rows are written and the block ends
    the same way. *)
Theorem pair_block_order (steps : Z) (start_r d : float) (a1 a2 : AtomType) :
  tl (fst (pair_block steps start_r d a1 a2))
  = tl (fst (pair_block steps start_r d a2 a1)) /\
  snd (pair_block steps start_r d a1 a2)
  = snd (pair_block steps start_r d a2 a1).
Proof.
  rewrite !pair_block_eq, (mix_comm a2 a1).
  destruct (lorentz_berthelot a1 a2) as [[s e]|x]; split; reflexivity.
Qed.

(** ** The length of a row *)

Lemma nl_length : String.length Fmt.nl = 1%nat.
Proof. reflexivity. Qed.

Lemma field_length (w p : nat) (x : float) :
  String.length (Fmt.field w p x)
  = Nat.max w (String.length (Fmt.format_f p x)).
Proof.
  unfold Fmt.field, Fmt.ljust. rewrite string_length_app, spaces_length. lia.
Qed.

(** X12.  A data row has the length of its three fields, two separating
    spaces and the end of line: at least 43 characters, and exactly 43
    when the three numbers fit their fields (at most 10, 15 and 15
    characters). *)
Theorem row_length (r E F : float) :
  String.length (row r E F)
  = (Nat.max 10 (String.length (Fmt.format_f 4 r))
     + Nat.max 15 (String.length (Fmt.format_f 6 E))
     + Nat.max 15 (String.length (Fmt.format_f 6 F)) + 3)%nat /\
  (43 <= String.length (row r E F))%nat /\
  ((String.length (Fmt.format_f 4 r) <= 10)%nat ->
   (String.length (Fmt.format_f 6 E) <= 15)%nat ->
   (String.length (Fmt.format_f 6 F) <= 15)%nat ->
   String.length (row r E F) = 43%nat).
Proof.
  assert (H : String.length (row r E F)
    = (Nat.max 10 (String.length (Fmt.format_f 4 r))
       + Nat.max 15 (String.length (Fmt.format_f 6 E))
       + Nat.max 15 (String.length (Fmt.format_f 6 F)) + 3)%nat).
  { unfold row. rewrite !string_length_app, !field_length, nl_length.
    cbn [String.length]. lia. }
  rewrite H. repeat split; lia.
Qed.

Lemma row_length_witness :
  String.length (row (F64.of_Z 2) F64.zero F64.zero) = 43%nat.
Proof.
  apply (proj2 (proj2 (row_length (F64.of_Z 2) F64.zero F64.zero)));
    vm_compute; lia.
Defined.

(** ** One grid for all the blocks *)

Lemma substring_app_long (n : nat) (a b : string) :
  (n <= String.length a)%nat -> substring 0 n (a ++ b) = substring 0 n a.
Proof.
  revert a. induction n as [|n IH]; intros a H.
  - destruct a, b; reflexivity.
  - destruct a as [|c a]; cbn in H; [lia|]. cbn. rewrite IH by lia.
    reflexivity.
Qed.

Lemma distance_column_of_row (r E F : float) :
  distance_column (row r E F) = substring 0 10 (Fmt.field 10 4 r).
Proof.
  unfold distance_column, row. apply substring_app_long.
  rewrite field_length. lia.
Qed.

Lemma emit_distance (e s x : float) (line : string) :
  emit e s x = Ret line ->
  distance_column line = substring 0 10 (Fmt.field 10 4 x).
Proof.
  unfold emit.
  destruct (compute_lennard_jones e s x) as [[E F]|y]; cbn [res_bind];
    [|discriminate].
  inversion 1. apply distance_column_of_row.
Qed.

Lemma Forall2_emit_column (e s : float) (K : list float) (rows : list string) :
  Forall2 (fun x line => emit e s x = Ret line) K rows ->
  map distance_column rows
  = map (fun x => substring 0 10 (Fmt.field 10 4 x)) K.
Proof.
  induction 1 as [|x line K rows Hx _ IH]; [reflexivity|].
  cbn [map]. now rewrite IH, (emit_distance _ _ _ _ Hx).
Qed.

(** X13.  In a run that completes, all the blocks are tabulated on the
    same grid: after its header, every block has the same number of rows
    and the same column of distances, that of the retained distances of
    the grid, whatever the pair. *)
Theorem blocks_share_the_grid (fs : Py.filesystem)
  (atoms_list : list AtomType)
  (start_r end_r d : float) (filename : string) :
  let r := generate_interaction_tables fs atoms_list start_r end_r d filename in
  outcome r = Ret tt ->
  exists steps blocks,
    grid_steps start_r end_r d = Ret steps /\
    file_chunks r = List.concat blocks /\
    List.length blocks
    = List.length (combinations_with_replacement2 atoms_list) /\
    Forall (fun b =>
              map distance_column (tl b)
              = map (fun x => substring 0 10 (Fmt.field 10 4 x))
                    (kept (samples (Py.range_len (steps + 1)) start_r d)))
      blocks.
Proof.
  intros r Ho.
  destruct (run_ret_for_pairs _ _ _ _ _ _ Ho) as (steps & Hs & Hf).
  destruct (for_pairs_ret_blocks _ _ _ _ _ Hf) as (blocks & Hc & Hb).
  exists steps, blocks. split; [exact Hs|]. split; [exact Hc|].
  split; [symmetry; eapply Forall2_length; exact Hb|].
  clear Hc Hf. induction Hb as [|p b ps bs Hpb _ IH]; constructor; [|exact IH].
  destruct Hpb as (s & e & rows & _ & -> & Hrows). cbn [tl].
  eapply Forall2_emit_column; exact Hrows.
Qed.

Lemma blocks_share_the_grid_witness :
  exists steps blocks,
    grid_steps (F64.of_Z 1) (F64.of_Z 2) (F64.of_decimal 5 1) = Ret steps /\
    file_chunks (generate_interaction_tables writable_everywhere atoms
                   (F64.of_Z 1) (F64.of_Z 2) (F64.of_decimal 5 1)
                   default_filename)
    = List.concat blocks /\
    List.length blocks = List.length (combinations_with_replacement2 atoms) /\
    Forall (fun b =>
              map distance_column (tl b)
              = map (fun x => substring 0 10 (Fmt.field 10 4 x))
                    (kept (samples (Py.range_len (steps + 1)) (F64.of_Z 1)
                             (F64.of_decimal 5 1))))
      blocks.
Proof.
  exact (blocks_share_the_grid writable_everywhere atoms (F64.of_Z 1)
           (F64.of_Z 2) (F64.of_decimal 5 1) default_filename
           ltac:(vm_compute; reflexivity)).
Defined.

(** ** Headers that tell the pairs apart *)

Lemma string_app_inj_len (a c b d : string) :
  String.length a = String.length c ->
  (a ++ b)%string = (c ++ d)%string -> a = c /\ b = d.
Proof.
  revert c. induction a as [|x a IH]; intros [|y c] Hl H;
    try discriminate; [now split|].
  cbn in H. inversion H; subst y.
  destruct (IH c) as [-> ->]; [now inversion Hl | assumption | now split].
Qed.

Lemma string_app_inv_tail (a c t : string) :
  (a ++ t)%string = (c ++ t)%string -> a = c.
Proof.
  intro H. apply (string_app_inj_len a c t t); [|exact H].
  apply (f_equal String.length) in H. rewrite !string_length_app in H. lia.
Qed.

Section Pairs.

Context {A : Type}.

Lemma cwr2_in (l : list A) (a b : A) :
  In (a, b) (combinations_with_replacement2 l) -> In a l /\ In b l.
Proof.
  induction l as [|x l IH]; [contradiction|].
  cbn [combinations_with_replacement2]. rewrite in_app_iff, in_map_iff.
  intros [(y & Hy & Hin)|H].
  - inversion Hy; subst. split; [now left | exact Hin].
  - destruct (IH H). split; now right.
Qed.

Lemma cwr2_nodup (l : list A) :
  NoDup l -> NoDup (combinations_with_replacement2 l).
Proof.
  induction 1 as [|x l Hx Hl IH]; [constructor|].
  cbn [combinations_with_replacement2].
  apply NoDup_app; [| exact IH |].
  - apply NoDup_map_NoDup_ForallPairs; [|now constructor].
    intros y z _ _ H. now inversion H.
  - intros [a b] Hin Hin'. apply in_map_iff in Hin as (y & Hy & _).
    inversion Hy; subst. apply cwr2_in in Hin' as [Hin' _]. contradiction.
Qed.

End Pairs.

Lemma name_injective (l : list AtomType) (a b : AtomType) :
  NoDup (map name l) -> In a l -> In b l -> name a = name b -> a = b.
Proof.
  induction l as [|x l IH]; [contradiction|].
  cbn [map]. intro Hnd. inversion Hnd as [|? ? Hx Hl]; subst.
  intros [->|Ha] [->|Hb] Hn; auto.
  - elim Hx. rewrite Hn. now apply in_map.
  - elim Hx. rewrite <- Hn. now apply in_map.
Qed.

(** X14.  When the atoms have distinct names of one length (as [OW0],
    [HW0], [LP0]), the header lines of the pairs are pairwise distinct: a
    header identifies its pair. *)
Theorem headers_distinct (atoms_list : list AtomType) (len : nat) :
  NoDup (map name atoms_list) ->
  Forall (fun a => String.length (name a) = len) atoms_list ->
  NoDup (map pair_header (combinations_with_replacement2 atoms_list)).
Proof.
  intros Hnd Hlen.
  apply NoDup_map_NoDup_ForallPairs;
    [|apply cwr2_nodup; eapply NoDup_map_inv; exact Hnd].
  intros [a1 a2] [b1 b2] Ha Hb H.
  apply cwr2_in in Ha as [Ha1 Ha2]. apply cwr2_in in Hb as [Hb1 Hb2].
  rewrite Forall_forall in Hlen.
  unfold pair_header, header in H. cbn [fst snd] in H.
  cbn [append] in H. inversion H as [H'].
  apply string_app_inv_tail in H'.
  apply string_app_inj_len in H' as [H1 H2];
    [|now rewrite !Hlen].
  f_equal; eapply name_injective; eauto.
Qed.

Lemma headers_distinct_witness :
  NoDup (map pair_header (combinations_with_replacement2 atoms)).
Proof.
  apply (headers_distinct atoms 3).
  - repeat constructor; cbn; intuition discriminate.
  - repeat constructor.
Defined.

(** ** Epsilons that are not negative *)






(** ** The range of the powers *)

Lemma iter_shr_zero (p : positive) :
  shr_m (iter_pos shr_1 p (shr_record_of_loc 0 loc_Exact)) = 0.
Proof.
  pose proof (Rounding.shr_inv_iter 0 p 0 _ (Z.le_refl 0)
                (Rounding.shr_inv_exact 0 (Z.le_refl 0))) as H.
  unfold shr_inv in H. cbv zeta in H. destruct H as (H0 & H1 & _).
  rewrite Z.add_0_l in H1.
  assert (0 < 2 ^ Zpos p) by (apply Z.pow_pos_nonneg; lia). nia.
Qed.

Lemma pack_zero (s : bool) (e : Z) : pack s 0 e = S754_zero s.
Proof.
  unfold pack, shr_fexp, shr. cbn [Zdigits2].
  destruct (fexp F64.prec F64.emax (0 + e) - e) as [|p|p];
    cbn [shr_m shr_record_of_loc]; try reflexivity.
  rewrite iter_shr_zero. reflexivity.
Qed.

Lemma pack_noshift (s : bool) (R : positive) (e : Z) :
  fexp64 (Zpos (digits2_pos R) + e) = e ->
  pack s (Zpos R) e
  = if e <=? 971 then S754_finite s R e else S754_infinity s.
Proof.
  intro Hc. unfold pack. rewrite (Rounding.shr_fexp_noshift _ _ _ Hc).
  reflexivity.
Qed.

Lemma pack_carry_any (s : bool) (e : Z) :
  -1075 <= e ->
  pack s (2 ^ 53) e
  = if e + 1 <=? 971 then S754_finite s two52 (e + 1) else S754_infinity s.
Proof.
  intro He. unfold pack. change (2 ^ 53) with (Zpos (two52~0)).
  rewrite (Rounding.shr_fexp_shift _ _ 1).
  2:{ change (Zpos (digits2_pos two52~0)) with 54. unfold fexp64. lia. }
  reflexivity.
Qed.

(** Shifting [p] bits out divides the mantissa by [2^p], whatever the
    two bits of the record. *)
Lemma shr_m_shr_1 (mrs : shr_record) :
  0 <= shr_m mrs -> shr_m (shr_1 mrs) = shr_m mrs / 2.
Proof.
  destruct mrs as [m r s]. cbn [shr_m]. intro H.
  rewrite (Rounding.shr_1_spec m r s H). reflexivity.
Qed.

Lemma iter_shr_nonneg (p : positive) (mrs : shr_record) :
  0 <= shr_m mrs -> 0 <= shr_m (iter_pos shr_1 p mrs).
Proof.
  apply (F64Facts.iter_pos_inv (fun x => 0 <= shr_m x)).
  exact F64Facts.shr_1_nonneg.
Qed.

Lemma shr_m_iter (p : positive) (mrs : shr_record) :
  0 <= shr_m mrs -> shr_m (iter_pos shr_1 p mrs) = shr_m mrs / 2 ^ Zpos p.
Proof.
  revert mrs. induction p as [p IH|p IH|]; intros mrs H; cbn [iter_pos].
  - pose proof (F64Facts.shr_1_nonneg mrs H) as H1.
    pose proof (iter_shr_nonneg p _ H1) as H2.
    assert (HP : 0 < 2 ^ Zpos p) by (apply Z.pow_pos_nonneg; lia).
    rewrite (IH _ H2), (IH _ H1), (shr_m_shr_1 _ H).
    rewrite !Z.div_div by lia. f_equal.
    rewrite Pos2Z.inj_xI.
    replace (2 * Zpos p + 1) with (1 + Zpos p + Zpos p) by lia.
    rewrite !Z.pow_add_r by lia. change (2 ^ 1) with 2. ring.
  - pose proof (iter_shr_nonneg p _ H) as H2.
    assert (HP : 0 < 2 ^ Zpos p) by (apply Z.pow_pos_nonneg; lia).
    rewrite (IH _ H2), (IH _ H).
    rewrite !Z.div_div by lia. f_equal.
    rewrite <- Z.pow_add_r by lia. f_equal. lia.
  - apply shr_m_shr_1, H.
Qed.

Lemma round_nearest_even_range (m : Z) (l : location) :
  m <= round_nearest_even m l <= m + 1.
Proof.
  destruct l as [|[]]; cbn [round_nearest_even]; try lia.
  destruct (Z.even m); lia.
Qed.

(** A number that is aligned on its exponent is rounded to a mantissa of
    53 bits, or of fewer bits in the subnormal range, whatever is known of
    the digits that were cut off before. *)
Lemma round_any_pack (s : bool) (m e : Z) (l : location) :
  let D := Zdigits2 m + e in
  0 <= m -> e <= fexp64 D ->
  exists R,
    binary_round_aux F64.prec F64.emax s m e l = pack s R (fexp64 D) /\
    0 <= R /\
    (-1021 <= D -> 2 ^ 52 <= R <= 2 ^ 53) /\
    (D < -1021 -> R <= 2 ^ 52).
Proof.
  intros D Hm HE. rewrite Rounding.binary_round_aux_pack.
  unfold shr_fexp. rewrite Rounding.fexp_eq. fold D. unfold shr.
  assert (Hdig : m = 0 /\ D = e \/
                 exists M, m = Zpos M /\ D = Zpos (digits2_pos M) + e).
  { destruct m as [|M|M]; [left; split; reflexivity | right | lia].
    exists M. split; reflexivity. }
  destruct (fexp64 D - e) as [|p|p] eqn:Hn; [| |lia]; cbn [fst snd].
  - rewrite F64Facts.shr_record_of_loc_m, Rounding.loc_of_shr_record_of_loc.
    pose proof (round_nearest_even_range m l) as HR.
    exists (round_nearest_even m l). replace (fexp64 D) with e by lia.
    split; [reflexivity|]. split; [lia|].
    destruct Hdig as [[-> HD]|(M & -> & HD)].
    + split; intro H; [unfold fexp64 in Hn; lia|].
      assert (0 < 2 ^ 52) by (apply Z.pow_pos_nonneg; lia). lia.
    + pose proof (Rounding.digits2_spec M) as HM.
      split; intro H.
      * assert (Hd : Zpos (digits2_pos M) = 53) by (unfold fexp64 in Hn; lia).
        rewrite Hd in HM. change (53 - 1) with 52 in HM. lia.
      * assert (Hd : Zpos (digits2_pos M) <= 52) by (unfold fexp64 in Hn; lia).
        assert (2 ^ Zpos (digits2_pos M) <= 2 ^ 52)
          by (apply Z.pow_le_mono_r; lia).
        lia.
  - assert (H0 : 0 <= shr_m (shr_record_of_loc m l))
      by (rewrite F64Facts.shr_record_of_loc_m; exact Hm).
    pose proof (shr_m_iter p _ H0) as Hq.
    rewrite F64Facts.shr_record_of_loc_m in Hq.
    set (mrs := iter_pos shr_1 p _) in *.
    pose proof (round_nearest_even_range (shr_m mrs) (loc_of_shr_record mrs))
      as HR.
    set (R := round_nearest_even _ _) in *.
    assert (HP : 0 < 2 ^ Zpos p) by (apply Z.pow_pos_nonneg; lia).
    assert (Hq0 : 0 <= shr_m mrs) by (rewrite Hq; apply Z.div_pos; lia).
    exists R. replace (e + Zpos p) with (fexp64 D) by lia.
    split; [reflexivity|]. split; [lia|].
    destruct Hdig as [[-> HD]|(M & -> & HD)].
    + rewrite Z.div_0_l in Hq by lia.
      split; intro H; [unfold fexp64 in Hn; lia|].
      assert (0 < 2 ^ 52) by (apply Z.pow_pos_nonneg; lia). lia.
    + pose proof (Rounding.digits2_spec M) as HM.
      split; intro H.
      * assert (Hd : Zpos (digits2_pos M) = 53 + Zpos p)
          by (unfold fexp64 in Hn; lia).
        rewrite Hd in HM.
        replace (53 + Zpos p - 1) with (52 + Zpos p) in HM by lia.
        rewrite !Z.pow_add_r in HM by lia.
        assert (2 ^ 52 <= shr_m mrs).
        { rewrite Hq. apply Z.div_le_lower_bound; lia. }
        assert (shr_m mrs < 2 ^ 53).
        { rewrite Hq. apply Z.div_lt_upper_bound; lia. }
        lia.
      * assert (Hd : Zpos (digits2_pos M) <= 52 + Zpos p)
          by (unfold fexp64 in Hn; lia).
        assert (Hle : 2 ^ Zpos (digits2_pos M) <= 2 ^ (52 + Zpos p))
          by (apply Z.pow_le_mono_r; lia).
        rewrite Z.pow_add_r in Hle by lia.
        assert (shr_m mrs < 2 ^ 52).
        { rewrite Hq. apply Z.div_lt_upper_bound; lia. }
        lia.
Qed.

Lemma digits2_iter_xO (m d : positive) :
  Zpos (digits2_pos (Pos.iter xO m d)) = Zpos (digits2_pos m) + Zpos d.
Proof.
  induction d as [|d IH] using Pos.peano_ind.
  - cbn [Pos.iter digits2_pos]. lia.
  - rewrite Pos.iter_succ. cbn [digits2_pos]. lia.
Qed.

(** [binary_round] aligns its argument first. *)
Lemma binary_round_aligned (s : bool) (M : positive) (E : Z) :
  exists M' E',
    binary_round F64.prec F64.emax s M E
    = binary_round_aux F64.prec F64.emax s (Zpos M') E' loc_Exact /\
    Zpos (digits2_pos M') + E' = Zpos (digits2_pos M) + E /\
    E' <= fexp64 (Zpos (digits2_pos M) + E).
Proof.
  unfold binary_round, shl_align. rewrite Rounding.fexp_eq.
  destruct (fexp64 (Zpos (digits2_pos M) + E) - E) as [|p|d] eqn:Hn.
  - exists M, E. split; [reflexivity|]. lia.
  - exists M, E. split; [reflexivity|]. lia.
  - exists (Pos.iter xO M d), (fexp64 (Zpos (digits2_pos M) + E)).
    split; [reflexivity|]. rewrite digits2_iter_xO. lia.
Qed.

Lemma digits2_le (R : positive) (k : Z) :
  Zpos R < 2 ^ k -> 0 <= k -> Zpos (digits2_pos R) <= k.
Proof.
  intros HR Hk. pose proof (Rounding.digits2_spec R) as H.
  destruct (Z_le_gt_dec (Zpos (digits2_pos R)) k) as [|Hgt]; [assumption|].
  assert (2 ^ k <= 2 ^ (Zpos (digits2_pos R) - 1))
    by (apply Z.pow_le_mono_r; lia).
  lia.
Qed.

Lemma finite_valid (s : bool) (m : positive) (e : Z) :
  fexp64 (Zpos (digits2_pos m) + e) = e -> e <= 971 ->
  F64.valid (S754_finite s m e) = true.
Proof.
  intros Hc He. unfold F64.valid, valid_binary, bounded, canonical_mantissa.
  rewrite Rounding.fexp_eq, Hc, Z.eqb_refl. cbn [andb].
  apply Z.leb_le. unfold F64.emax, F64.prec. lia.
Qed.

Lemma pack_magnitude (s : bool) (R D : Z) :
  0 <= R ->
  (-1021 <= D -> 2 ^ 52 <= R <= 2 ^ 53) ->
  (D < -1021 -> R <= 2 ^ 52) ->
  rounded_to s D (pack s R (fexp64 D)).
Proof.
  intros HR0 Hnorm Hsub. unfold rounded_to.
  destruct (Z_le_gt_dec (-1021) D) as [Hn|Hs].
  - specialize (Hnorm Hn). clear Hsub.
    assert (He : fexp64 D = D - 53) by (unfold fexp64; lia).
    rewrite He.
    destruct (Z.eq_dec R (2 ^ 53)) as [->|Hne].
    + rewrite pack_carry_any by lia.
      destruct (Z.leb_spec (D - 53 + 1) 971) as [Hle|Hgt].
      * repeat split; try (intros; (reflexivity || lia)).
        -- intros _. right. exists two52, (D - 53 + 1).
           split; [reflexivity|]. change (Zpos (digits2_pos two52)) with 53.
           lia.
        -- cbn [magnitude]. change (Zpos (digits2_pos two52)) with 53. lia.
        -- apply finite_valid; [|lia].
           change (Zpos (digits2_pos two52)) with 53. unfold fexp64. lia.
      * repeat split; try (intros; (reflexivity || lia)).
        -- intros _. left. reflexivity.
        -- cbn [magnitude]. lia.
    + destruct R as [|R'|R']; [lia| |lia].
      assert (Hd : Zpos (digits2_pos R') = 53).
      { apply Rounding.digits2_unique. change (53 - 1) with 52. lia. }
      rewrite pack_noshift by (rewrite Hd; unfold fexp64; lia).
      destruct (Z.leb_spec (D - 53) 971) as [Hle|Hgt].
      * repeat split; try (intros; (reflexivity || lia)).
        -- intros _. right. exists R', (D - 53). split; [reflexivity|]. lia.
        -- cbn [magnitude]. lia.
        -- apply finite_valid; [|lia]. rewrite Hd. unfold fexp64. lia.
      * repeat split; try (intros; (reflexivity || lia)).
        -- intros _. left. reflexivity.
        -- cbn [magnitude]. lia.
  - assert (Hs' : D < -1021) by lia. specialize (Hsub Hs'). clear Hnorm.
    assert (He : fexp64 D = -1074) by (unfold fexp64; lia).
    rewrite He.
    destruct R as [|R'|R']; [| |lia].
    + rewrite pack_zero.
      repeat split; try (intros; (reflexivity || lia)). cbn [magnitude]. lia.
    + assert (Hd : Zpos (digits2_pos R') <= 53).
      { apply digits2_le; [|lia].
        assert (2 ^ 52 < 2 ^ 53) by (apply Z.pow_lt_mono_r; lia). lia. }
      rewrite pack_noshift by (unfold fexp64; lia).
      change (-1074 <=? 971) with true. cbv iota.
      repeat split; try (intros; (reflexivity || lia)).
      * cbn [magnitude]. lia.
      * apply finite_valid; [|lia]. unfold fexp64. lia.
Qed.

Lemma binary_round_aux_magnitude (s : bool) (m e : Z) (l : location) :
  0 <= m -> e <= fexp64 (Zdigits2 m + e) ->
  rounded_to s (Zdigits2 m + e) (binary_round_aux F64.prec F64.emax s m e l).
Proof.
  intros Hm He.
  destruct (round_any_pack s m e l Hm He) as (R & -> & HR0 & Hnorm & Hsub).
  now apply pack_magnitude.
Qed.

(** The magnitude of a rounded exact number [M * 2^E], from the number of
    its bits in front of the binary point. *)
Lemma binary_round_magnitude (s : bool) (M : positive) (E : Z) :
  rounded_to s (Zpos (digits2_pos M) + E)
    (binary_round F64.prec F64.emax s M E).
Proof.
  destruct (binary_round_aligned s M E) as (M' & E' & -> & HD' & HE').
  rewrite <- HD' in HE' |- *.
  apply (binary_round_aux_magnitude s (Zpos M') E' loc_Exact); [lia|].
  exact HE'.
Qed.

Lemma digits2_pow (m n : positive) :
  Zpos n * (Zpos (digits2_pos m) - 1) + 1 <= Zpos (digits2_pos (m ^ n))
  <= Zpos n * Zpos (digits2_pos m).
Proof.
  pose proof (Rounding.digits2_spec m) as Hm.
  pose proof (Rounding.digits2_spec (m ^ n)) as Hp.
  rewrite Pos2Z.inj_pow in Hp.
  set (d := Zpos (digits2_pos m)) in *.
  set (dn := Zpos (digits2_pos (m ^ n))) in *.
  assert (Hd : 1 <= d) by (unfold d; lia).
  assert (Hlo : 2 ^ ((d - 1) * Zpos n) <= Zpos m ^ Zpos n).
  { rewrite Z.pow_mul_r by lia. apply Z.pow_le_mono_l.
    split; [apply Z.pow_nonneg; lia | lia]. }
  assert (Hhi : Zpos m ^ Zpos n < 2 ^ (d * Zpos n)).
  { rewrite Z.pow_mul_r by lia. apply Z.pow_lt_mono_l; lia. }
  split.
  - assert (H : (d - 1) * Zpos n < dn).
    { apply (Z.pow_lt_mono_r_iff 2); [lia | unfold dn; lia | lia]. }
    lia.
  - assert (H : dn - 1 < d * Zpos n).
    { apply (Z.pow_lt_mono_r_iff 2); [lia | nia | lia]. }
    lia.
Qed.

Lemma libm_pow_eq (m : positive) (e : Z) (n : positive) :
  Py.libm_pow m e n
  = binary_round F64.prec F64.emax false (m ^ n) (e * Zpos n).
Proof. reflexivity. Qed.

Lemma eqb_one_magnitude (m : positive) (e : Z) :
  F64.eqb (S754_finite false m e) (F64.of_Z 1) = true ->
  Zpos (digits2_pos m) + e = 1.
Proof.
  change (F64.of_Z 1) with (S754_finite false two52 (-52)).
  unfold F64.eqb, SFeqb, SFcompare.
  destruct (e ?= -52) eqn:He; try discriminate.
  destruct (Pos.compare_cont Eq m two52) eqn:Hm; try discriminate.
  intros _. apply Z.compare_eq in He. apply Pos.compare_eq in Hm.
  subst m e. reflexivity.
Qed.

Lemma magnitude_neg (x : float) : magnitude (F64.neg x) = magnitude x.
Proof. destruct x; reflexivity. Qed.

(** A power whose exact value is below [2^1022] is returned, and its
    magnitude is bounded by that of the exact value. *)
Lemma float_pow_returns (x : float) (n : positive) :
  Zpos n * magnitude x <= 1022 ->
  exists y, Py.float_pow x n = Ret y /\
            magnitude y <= Z.max (Zpos n * magnitude x + 1) 1.
Proof.
  intro H. destruct x as [s|s| |s m e].
  - eexists. split; [reflexivity|]. destruct (Z.odd (Zpos n)); cbn; lia.
  - eexists. split; [reflexivity|]. destruct (Z.odd (Zpos n)); cbn; lia.
  - eexists. split; [reflexivity|]. cbn. lia.
  - unfold Py.float_pow. cbv zeta.
    destruct (F64.eqb (F64.fabs (S754_finite s m e)) (F64.of_Z 1)).
    + eexists. split; [reflexivity|].
      destruct (s && Z.odd (Zpos n)).
      * change (magnitude (F64.of_Z (-1))) with 1. lia.
      * change (magnitude (F64.of_Z 1)) with 1. lia.
    + cbn [magnitude] in H |- *. rewrite libm_pow_eq.
      pose proof (digits2_pow m n) as Hd.
      destruct (binary_round_magnitude false (m ^ n) (e * Zpos n))
        as (Hinf & _ & _ & Hmag & _).
      rewrite Hinf by nia.
      eexists. split; [reflexivity|].
      destruct (s && Z.odd (Zpos n)); rewrite ?magnitude_neg; nia.
Qed.

(** A power of a number of magnitude at least 2 overflows or is a finite
    number whose magnitude grows with the exponent; it overflows when the
    exact value reaches [2^1024]. *)
Lemma float_pow_grows (s : bool) (m : positive) (e : Z) (n : positive) :
  let mag := Zpos (digits2_pos m) + e in
  2 <= mag ->
  (Py.float_pow (S754_finite s m e) n = Raise OverflowError \/
   exists s' m' e',
     Py.float_pow (S754_finite s m e) n = Ret (S754_finite s' m' e') /\
     Zpos n * (mag - 1) + 1 <= Zpos (digits2_pos m') + e') /\
  (1024 <= Zpos n * (mag - 1) ->
   Py.float_pow (S754_finite s m e) n = Raise OverflowError).
Proof.
  intros mag Hmag. unfold Py.float_pow. cbv zeta.
  destruct (F64.eqb (F64.fabs (S754_finite s m e)) (F64.of_Z 1)) eqn:H1.
  { apply eqb_one_magnitude in H1. fold mag in H1. lia. }
  rewrite libm_pow_eq.
  pose proof (digits2_pow m n) as Hd.
  destruct (binary_round_magnitude false (m ^ n) (e * Zpos n))
    as (_ & Hover & Hfin & _).
  assert (HD : Zpos n * (mag - 1) + 1
               <= Zpos (digits2_pos (m ^ n)) + e * Zpos n)
    by (unfold mag; nia).
  split.
  - destruct Hfin as [->|(m' & e' & -> & Hm')]; [nia | left; reflexivity |].
    right. cbn [F64.is_inf].
    destruct (s && Z.odd (Zpos n)).
    + exists true, m', e'. split; [reflexivity|]. lia.
    + exists false, m', e'. split; [reflexivity|]. lia.
  - intro Hbig. rewrite Hover by lia. reflexivity.
Qed.

(** X16.  No overflow below the threshold: when the quotient [sigma / r]
    is below [2^85] in magnitude (at most 85 bits in front of the binary
    point), or is zero, infinite or NaN, the two powers are returned and
    [compute_lennard_jones] returns an energy and a force, whatever
    epsilon. *)
Theorem compute_lennard_jones_returns (epsilon sigma r : float) :
  magnitude (F64.div sigma r) <= 85 ->
  exists E F, compute_lennard_jones epsilon sigma r = Ret (E, F).
Proof.
  intro Hq. unfold compute_lennard_jones.
  rewrite F64Facts.eqb_zero_is_zero.
  destruct (F64.is_zero r) eqn:Hz; [eexists; eexists; reflexivity|].
  rewrite !(truediv_nonzero _ _ Hz). cbn [res_bind].
  destruct (float_pow_returns (F64.div sigma r) 6) as (sr6 & -> & H6); [lia|].
  cbn [res_bind].
  destruct (float_pow_returns sr6 2) as (sr12 & -> & _); [lia|].
  cbn [res_bind]. eexists; eexists; reflexivity.
Qed.

Lemma compute_lennard_jones_returns_witness :
  magnitude (F64.div (F64.of_Z 3) (F64.of_Z 2)) <= 85 /\
  exists E F,
    compute_lennard_jones (F64.of_Z 1) (F64.of_Z 3) (F64.of_Z 2) = Ret (E, F).
Proof.
  assert (H : magnitude (F64.div (F64.of_Z 3) (F64.of_Z 2)) <= 85)
    by (vm_compute; intro H; discriminate H).
  split; [exact H|].
  exact (compute_lennard_jones_returns (F64.of_Z 1) (F64.of_Z 3) (F64.of_Z 2) H).
Defined.

(** X17.  Overflow above the threshold: at a distance that is not zero,
    when the quotient [sigma / r] is finite and at least [2^86] in
    magnitude (87 bits or more in front of the binary point),
    [compute_lennard_jones] raises [OverflowError], from the sixth power or
    from its square, whatever epsilon. *)
Theorem compute_lennard_jones_overflows (epsilon sigma r : float) :
  F64.is_zero r = false ->
  87 <= magnitude (F64.div sigma r) ->
  compute_lennard_jones epsilon sigma r = Raise OverflowError.
Proof.
  intros Hz Hq. unfold compute_lennard_jones.
  rewrite F64Facts.eqb_zero_is_zero, Hz.
  rewrite !(truediv_nonzero _ _ Hz). cbn [res_bind].
  destruct (F64.div sigma r) as [s|s| |s m e]; cbn [magnitude] in Hq;
    try lia.
  destruct (float_pow_grows s m e 6) as [[->|(s' & m' & e' & -> & H6)] _];
    [lia | reflexivity |].
  cbn [res_bind].
  pose proof (float_pow_grows s' m' e' 2) as H2. cbv zeta in H2.
  destruct H2 as [_ H2]; [lia|]. rewrite H2 by lia. reflexivity.
Qed.

Lemma compute_lennard_jones_overflows_witness :
  F64.is_zero (F64.pow2 (-90)) = false /\
  87 <= magnitude (F64.div (F64.of_Z 1) (F64.pow2 (-90))) /\
  compute_lennard_jones (F64.of_Z 1) (F64.of_Z 1) (F64.pow2 (-90))
  = Raise OverflowError.
Proof.
  assert (Hz : F64.is_zero (F64.pow2 (-90)) = false) by reflexivity.
  assert (H : 87 <= magnitude (F64.div (F64.of_Z 1) (F64.pow2 (-90))))
    by (vm_compute; intro H; discriminate H).
  split; [exact Hz|]. split; [exact H|].
  exact (compute_lennard_jones_overflows
           (F64.of_Z 1) (F64.of_Z 1) (F64.pow2 (-90)) Hz H).
Defined.

(** ** The range of the sums and of the quotients *)













(** ** Runs that complete *)








